(** * lambda_function.py: the recommendPortfolio dialog handler

    A shallow embedding of [Lambda/lambda_function.py] and the properties
    of its validation, response builders, fulfillment and dispatch.

    Conventions of the model:
    - a Python [str] is a [string] whose characters are code points below
      256; [str_lower] and [int_of_str] are [str.lower] and [int(str)] on
      that range, [int] with CPython's default limit of 4300 digits;
    - the values of an event are JSON null, strings and objects
      ([pyval]): the bot platform hands slot values over as strings or
      null; a [dict] with string keys is a [gmap string pyval];
    - a call either returns or raises ([res]); the handler runs in a
      state-and-exception monad [M] whose state is the event object,
      because [slots[...] = None] writes into the dict that the event
      holds, and the response carries that same dict. *)

From Stdlib Require Import ZArith Ascii String.
From stdpp Require Import gmap strings list fin_maps.

Set Warnings "-register-all".

(** ** Values, numbers and exceptions *)

Inductive pyval : Type :=
| PNone
| PStr (s : string)
| PDict (d : gmap string pyval).

(** What [parse_int] hands back: an [int], or [float("nan")]. *)
Inductive pynum : Type :=
| PInt (z : Z)
| PNan.

Inductive pyexn : Type :=
| KeyError (k : string)
| ValueError
| TypeError
| AttributeError
| Exception (msg : string).

Inductive res (A : Type) : Type :=
| Ok (a : A)
| Raise (e : pyexn).
Arguments Ok {A} a.
Arguments Raise {A} e.

#[global] Instance res_ret : MRet res := λ A a, Ok a.
#[global] Instance res_bind : MBind res := λ A B f m,
  match m with
  | Ok a => f a
  | Raise e => Raise e
  end.

(** State and exceptions: the state is the event object that
    [intent_request] names. *)
Definition M (A : Type) : Type := pyval → res A * pyval.

#[global] Instance M_ret : MRet M := λ A a ev, (Ok a, ev).
#[global] Instance M_bind : MBind M := λ A B f m ev,
  match m ev with
  | (Ok a, ev') => f a ev'
  | (Raise e, ev') => (Raise e, ev')
  end.

Definition raise {A : Type} (e : pyexn) : M A := λ ev, (Raise e, ev).
Definition lift {A : Type} (r : res A) : M A := λ ev, (r, ev).
Definition the_event : M pyval := λ ev, (Ok ev, ev).

(** ** Builtins: comparisons, subscripts, [str.lower], [int] *)

(** [a < z], [a > z], [a <= z] for [a] an int or NaN: every comparison
    with NaN is [False]. *)
Definition num_lt (a : pynum) (z : Z) : bool :=
  match a with PInt x => (x <? z)%Z | PNan => false end.
Definition num_gt (a : pynum) (z : Z) : bool :=
  match a with PInt x => (z <? x)%Z | PNan => false end.
Definition num_le (a : pynum) (z : Z) : bool :=
  match a with PInt x => (x <=? z)%Z | PNan => false end.

(** [v is not None] *)
Definition is_not_none (v : pyval) : bool :=
  match v with PNone => false | _ => true end.

(** [v == "literal"] *)
Definition eq_str (v : pyval) (lit : string) : bool :=
  match v with PStr s => bool_decide (s = lit) | _ => false end.

(** [v[k]] for a string [k]: [KeyError] on a dict without the key,
    [TypeError] on [None] and on a [str]. *)
Definition subscript (v : pyval) (k : string) : res pyval :=
  match v with
  | PDict d =>
      match d !! k with
      | Some x => Ok x
      | None => Raise (KeyError k)
      end
  | _ => Raise TypeError
  end.

Notation "v .[ k ]" := (subscript v k) (at level 1, format "v .[ k ]").

Definition in_range (lo hi n : N) : bool := ((lo <=? n) && (n <=? hi))%N.

(** [str.lower]: the capital letters A-Z and the Latin-1 capitals
    (U+00C0-U+00D6, U+00D8-U+00DE) move up by 32. *)
Definition lower_char (c : ascii) : ascii :=
  let n := N_of_ascii c in
  if in_range 65 90 n || in_range 192 214 n || in_range 216 222 n
  then ascii_of_N (n + 32)
  else c.

Fixpoint str_lower (s : string) : string :=
  match s with
  | EmptyString => EmptyString
  | String c s' => String (lower_char c) (str_lower s')
  end.

(** [int(str)]: optional white space around an optional sign and a run
    of decimal digits, single underscores allowed between digits, at
    most [int_max_str_digits] digits. *)
Definition is_space (c : ascii) : bool :=
  let n := N_of_ascii c in
  in_range 9 13 n || (n =? 32)%N || (n =? 133)%N || (n =? 160)%N.

Definition digit_val (c : ascii) : option Z :=
  let n := N_of_ascii c in
  if in_range 48 57 n then Some (Z.of_N n - 48)%Z else None.

Fixpoint lstrip (s : list ascii) : list ascii :=
  match s with
  | c :: s' => if is_space c then lstrip s' else s
  | [] => []
  end.

Definition strip (s : list ascii) : list ascii :=
  rev (lstrip (rev (lstrip s))).

(** The digits of the literal: the value so far, the number of digits
    read, and whether the previous character was an underscore. *)
Fixpoint digits (acc : Z) (cnt : nat) (prev_us : bool) (s : list ascii)
  : option (Z * nat) :=
  match s with
  | [] => if prev_us then None else Some (acc, cnt)
  | c :: s' =>
      if Ascii.eqb c "_" then
        if prev_us then None else digits acc cnt true s'
      else
        match digit_val c with
        | Some d => digits (10 * acc + d)%Z (S cnt) false s'
        | None => None
        end
  end.

Definition int_max_str_digits : nat := 4300.

Definition int_of_str (s : string) : option Z :=
  let body := strip (list_ascii_of_string s) in
  let '(sign, ds) :=
    match body with
    | c :: r =>
        if Ascii.eqb c "+" then (1%Z, r)
        else if Ascii.eqb c "-" then ((-1)%Z, r)
        else (1%Z, body)
    | [] => (1%Z, body)
    end in
  match ds with
  | [] => None
  | c :: _ =>
      if Ascii.eqb c "_" then None
      else
        match digits 0 0 false ds with
        | Some (v, n) =>
            if (int_max_str_digits <? n)%nat then None else Some (sign * v)%Z
        | None => None
        end
  end.

(** [int(n)]: [ValueError] for a string that is no literal, [TypeError]
    for [None] and for a dict. *)
Definition py_int (n : pyval) : res Z :=
  match n with
  | PStr s =>
      match int_of_str s with
      | Some z => Ok z
      | None => Raise ValueError
      end
  | _ => Raise TypeError
  end.

(** ** Functionality helper functions *)

(** [parse_int]: only [ValueError] is caught. *)
Definition parse_int (n : pyval) : res pynum :=
  match py_int n with
  | Ok z => Ok (PInt z)
  | Raise ValueError => Ok PNan
  | Raise e => Raise e
  end.

(** The dict [{"contentType": "PlainText", "content": c}]. *)
Definition plain_text (c : string) : pyval :=
  PDict (<["contentType" := PStr "PlainText"]>
        (<["content" := PStr c]> ∅)).

(** The validation result: a dict with the keys [isValid] and
    [violatedSlot], and [message] only when a content was given. *)
Record validation_result : Type := {
  isValid : bool;
  violatedSlot : option string;
  message : option pyval
}.

Definition build_validation_result (is_valid : bool)
    (violated_slot : option string) (message_content : option string)
  : validation_result :=
  match message_content with
  | None =>
      {| isValid := is_valid; violatedSlot := violated_slot;
         message := None |}
  | Some c =>
      {| isValid := is_valid; violatedSlot := violated_slot;
         message := Some (plain_text c) |}
  end.

Definition validate_data (age investment_amount intent_request : pyval)
  : res validation_result :=
  (* lines 53-67: the investment amount, then the valid result *)
  let amount_rule : res validation_result :=
    if is_not_none investment_amount then
      investment_amount ← parse_int investment_amount;
      if num_le investment_amount 4999 then
        mret (build_validation_result false (Some "investmentAmount")
          (Some ("Your investment amount must be greater than or equal to $5000, "
                 +:+ "please provide a different investment amount.")))
      else mret (build_validation_result true None None)
    else mret (build_validation_result true None None) in
  if is_not_none age then
    age ← parse_int age;
    if num_lt age 0 then
      mret (build_validation_result false (Some "age")
        (Some ("This is not a valid age, "
               +:+ "please provide a different age.")))
    else if num_gt age 65 then
      mret (build_validation_result false (Some "age")
        (Some "Sorry, you are already at retirement age! I cannot recommend a portfolio."))
    else amount_rule
  else amount_rule.

Definition risk_levels : gmap string string :=
  <["none" := "100% bonds (AGG), 0% equities (SPY)"]>
  (<["low" := "60% bonds (AGG), 40% equities (SPY)"]>
  (<["medium" := "40% bonds (AGG), 60% equities (SPY)"]>
  (<["high" := "20% bonds (AGG), 80% equities (SPY)"]> ∅))).

Definition get_risks (risk_level : string) : res string :=
  match risk_levels !! risk_level with
  | Some allocation => Ok allocation
  | None => Raise (KeyError risk_level)
  end.

(** ** Dialog action helper functions *)

(** [intent_request[k]] *)
Definition event_item (k : string) : M pyval :=
  intent_request ← the_event; lift (intent_request.[k]).

Definition get_slots : M pyval :=
  current_intent ← event_item "currentIntent";
  lift (current_intent.["slots"]).

Definition elicit_slot (session_attributes intent_name slots
    slot_to_elicit message : pyval) : pyval :=
  PDict (<["sessionAttributes" := session_attributes]>
        (<["dialogAction" :=
            PDict (<["type" := PStr "ElicitSlot"]>
                  (<["intentName" := intent_name]>
                  (<["slots" := slots]>
                  (<["slotToElicit" := slot_to_elicit]>
                  (<["message" := message]> ∅)))))]> ∅)).

Definition delegate (session_attributes slots : pyval) : pyval :=
  PDict (<["sessionAttributes" := session_attributes]>
        (<["dialogAction" :=
            PDict (<["type" := PStr "Delegate"]>
                  (<["slots" := slots]> ∅))]> ∅)).

Definition close (session_attributes fulfillment_state message : pyval)
  : pyval :=
  PDict (<["sessionAttributes" := session_attributes]>
        (<["dialogAction" :=
            PDict (<["type" := PStr "Close"]>
                  (<["fulfillmentState" := fulfillment_state]>
                  (<["message" := message]> ∅)))]> ∅)).

(** ** Intent handler *)

(** The event with the dict at [currentIntent.slots] replaced. *)
Definition write_slots (slots' : pyval) (ev : pyval) : pyval :=
  match ev with
  | PDict e =>
      PDict (alter (λ ci,
                      match ci with
                      | PDict c => PDict (<["slots" := slots']> c)
                      | _ => ci
                      end) "currentIntent" e)
  | _ => ev
  end.

(** [slots[k] = v] for the dict [slots] that [get_slots] returned: the
    write goes to the one dict object, which the event holds too. The
    result is the dict as [slots] sees it afterwards. *)
Definition store_slot (slots : pyval) (k : string) (v : pyval) : M pyval :=
  match slots with
  | PDict sl =>
      let slots' := PDict (<[k := v]> sl) in
      λ ev, (Ok slots', write_slots slots' ev)
  | _ => raise TypeError
  end.

(** [validation_result["violatedSlot"]] and [validation_result["message"]] *)
Definition violated_slot_item (r : validation_result) : pyval :=
  match violatedSlot r with
  | Some k => PStr k
  | None => PNone
  end.

Definition message_item (r : validation_result) : res pyval :=
  match message r with
  | Some m => Ok m
  | None => Raise (KeyError "message")
  end.

Definition recommend_portfolio : M pyval :=
  first_name ← (slots ← get_slots; lift (slots.["firstName"]));
  age ← (slots ← get_slots; lift (slots.["age"]));
  investment_amount ← (slots ← get_slots; lift (slots.["investmentAmount"]));
  risk_level ← (slots ← get_slots; lift (slots.["riskLevel"]));
  source ← event_item "invocationSource";
  source ← event_item "invocationSource";
  if eq_str source "DialogCodeHook" then
    slots ← get_slots;
    intent_request ← the_event;
    validation_result ← lift (validate_data age investment_amount intent_request);
    if negb (isValid validation_result) then
      match violatedSlot validation_result with
      | Some violated =>
          slots ← store_slot slots violated PNone;
          session_attributes ← event_item "sessionAttributes";
          intent_name ← (current_intent ← event_item "currentIntent";
                         lift (current_intent.["name"]));
          message ← lift (message_item validation_result);
          mret (elicit_slot session_attributes intent_name slots
                  (violated_slot_item validation_result) message)
      | None =>
          (* Dead code here: [validate_data] names a slot with every
             failure (lemma [validate_data_cases]). Python would store
             under the key [None], which a string-keyed map cannot hold. *)
          raise TypeError
      end
    else
      output_session_attributes ← event_item "sessionAttributes";
      slots ← get_slots;
      mret (delegate output_session_attributes slots)
  else
    match risk_level with
    | PStr r =>
        desired_risk ← lift (get_risks (str_lower r));
        session_attributes ← event_item "sessionAttributes";
        mret (close session_attributes (PStr "Fulfilled")
                (plain_text ("For a " +:+ r +:+ "-risk portfolio, invest in "
                             +:+ desired_risk)))
    | _ =>
        (* [None] and dicts have no attribute [lower] *)
        raise AttributeError
    end.

(** ** Intent dispatcher and main handler *)

Definition dispatch : M pyval :=
  intent_name ← (current_intent ← event_item "currentIntent";
                 lift (current_intent.["name"]));
  if eq_str intent_name "recommendPortfolio" then recommend_portfolio
  else
    match intent_name with
    | PStr n =>
        raise (Exception ("Intent with name " +:+ n +:+ " not supported"))
    | _ =>
        (* [str + None], [str + dict] *)
        raise TypeError
    end.

(** [lambda_handler(event, context)]: [event] is the state the handler
    runs in. *)
Definition lambda_handler (context : pyval) : M pyval := dispatch.

(** ** Sample runs *)

Definition sample_slots (age amount risk : pyval) : gmap string pyval :=
  <["firstName" := PStr "Ada"]>
  (<["age" := age]>
  (<["investmentAmount" := amount]>
  (<["riskLevel" := risk]> ∅))).

Definition sample_event (source : string) (age amount risk : pyval) : pyval :=
  PDict (<["currentIntent" :=
            PDict (<["name" := PStr "recommendPortfolio"]>
                  (<["slots" := PDict (sample_slots age amount risk)]> ∅))]>
        (<["invocationSource" := PStr source]>
        (<["sessionAttributes" := PDict (<["lang" := PStr "en"]> ∅)]> ∅))).

(** ** Reading an event

    What a statement about the handler assumes of the event, one
    predicate per place the handler reads. *)

(** [ev["currentIntent"]["slots"]] is the dict [sl]. *)
Definition event_slots (ev : pyval) (sl : gmap string pyval) : Prop :=
  ∃ e ci : gmap string pyval,
    ev = PDict e ∧ e !! "currentIntent" = Some (PDict ci) ∧
    ci !! "slots" = Some (PDict sl).

(** [ev["currentIntent"]["name"]] is [nm]. *)
Definition event_name (ev nm : pyval) : Prop :=
  ∃ e ci : gmap string pyval,
    ev = PDict e ∧ e !! "currentIntent" = Some (PDict ci) ∧
    ci !! "name" = Some nm.

(** [ev[k]] is [v]. *)
Definition event_field (ev : pyval) (k : string) (v : pyval) : Prop :=
  ∃ e : gmap string pyval, ev = PDict e ∧ e !! k = Some v.

(** The path conditions under which [validate_data] falls through the
    age rules (lines 35-51) and through the amount rule (lines 54-64). *)
Definition age_rule_passes (age : pyval) : Prop :=
  age = PNone ∨
  ∃ a, parse_int age = Ok a ∧ num_lt a 0 = false ∧ num_gt a 65 = false.

Definition amount_rule_passes (investment_amount : pyval) : Prop :=
  investment_amount = PNone ∨
  ∃ m, parse_int investment_amount = Ok m ∧ num_le m 4999 = false.

(** [ev] is a dict without the key [k]: [ev[k]] raises [KeyError]. *)
Definition event_lacks (ev : pyval) (k : string) : Prop :=
  ∃ e : gmap string pyval, ev = PDict e ∧ e !! k = None.

(** A computation that only reads the event: whatever its outcome, the
    event is as before. *)
Definition reads {A : Type} (m : M A) : Prop :=
  ∀ ev r ev', m ev = (r, ev') → ev' = ev.


Example int_of_str_samples :
  int_of_str "30" = Some 30%Z ∧ int_of_str " -1 " = Some (-1)%Z ∧
  int_of_str "+5_000" = Some 5000%Z ∧ int_of_str "007" = Some 7%Z ∧
  int_of_str "thirty" = None ∧ int_of_str "" = None ∧
  int_of_str "5.0" = None ∧ int_of_str "_5" = None ∧
  int_of_str "5__0" = None ∧ int_of_str "- 5" = None.
Proof. vm_compute. repeat split. Qed.

Example run_age_minus_one :
  lambda_handler PNone (sample_event "DialogCodeHook" (PStr "-1") PNone PNone)
  = (Ok (elicit_slot (PDict (<["lang" := PStr "en"]> ∅))
           (PStr "recommendPortfolio")
           (PDict (sample_slots PNone PNone PNone)) (PStr "age")
           (plain_text "This is not a valid age, please provide a different age.")),
     sample_event "DialogCodeHook" PNone PNone PNone).
Proof. vm_compute. reflexivity. Qed.

Example run_valid :
  lambda_handler PNone (sample_event "DialogCodeHook" (PStr "30") (PStr "5000") PNone)
  = (Ok (delegate (PDict (<["lang" := PStr "en"]> ∅))
           (PDict (sample_slots (PStr "30") (PStr "5000") PNone))),
     sample_event "DialogCodeHook" (PStr "30") (PStr "5000") PNone).
Proof. vm_compute. reflexivity. Qed.

Example run_fulfillment :
  fst (lambda_handler PNone
         (sample_event "FulfillmentCodeHook" (PStr "30") (PStr "5000") (PStr "Low")))
  = Ok (close (PDict (<["lang" := PStr "en"]> ∅)) (PStr "Fulfilled")
          (plain_text "For a Low-risk portfolio, invest in 60% bonds (AGG), 40% equities (SPY)")).
Proof. vm_compute. reflexivity. Qed.

(** ** The monad *)

(** The key set of a dict literal, against a set literal. *)
Ltac dom_keys :=
  rewrite !dom_insert_L, dom_empty_L; apply set_eq; intros ?;
  rewrite ?elem_of_union, ?elem_of_singleton, ?elem_of_empty; tauto.

Lemma bind_ok {A B : Type} (m : M A) (f : A → M B) ev a ev' :
  m ev = (Ok a, ev') → (m ≫= f) ev = f a ev'.
Proof. intros H. unfold mbind, M_bind. by rewrite H. Qed.

Lemma bind_raise {A B : Type} (m : M A) (f : A → M B) ev e ev' :
  m ev = (Raise e, ev') → (m ≫= f) ev = (Raise e, ev').
Proof. intros H. unfold mbind, M_bind. by rewrite H. Qed.

Lemma bind_inv {A B : Type} (m : M A) (f : A → M B) ev b ev2 :
  (m ≫= f) ev = (Ok b, ev2) →
  ∃ a ev1, m ev = (Ok a, ev1) ∧ f a ev1 = (Ok b, ev2).
Proof.
  unfold mbind, M_bind. destruct (m ev) as [[a|e] ev1]; intros H.
  - by exists a, ev1.
  - discriminate.
Qed.

Lemma lift_inv {A : Type} (r : res A) ev a ev' :
  lift r ev = (Ok a, ev') → r = Ok a ∧ ev' = ev.
Proof. unfold lift. by intros [= -> ->]. Qed.

(** ** Reading an event *)

Lemma event_item_ok ev k v :
  event_field ev k v → event_item k ev = (Ok v, ev).
Proof.
  intros (e & -> & Hk). unfold event_item, the_event, lift, mbind, M_bind.
  cbn. by rewrite Hk.
Qed.

Lemma event_item_state k ev r ev' : event_item k ev = (r, ev') → ev' = ev.
Proof. unfold event_item, the_event, lift, mbind, M_bind. by intros [= _ <-]. Qed.

Lemma get_slots_ok ev sl :
  event_slots ev sl → get_slots ev = (Ok (PDict sl), ev).
Proof.
  intros (e & ci & -> & Hci & Hsl). unfold get_slots.
  rewrite (bind_ok _ _ _ (PDict ci) (PDict e)).
  - unfold lift, subscript. by rewrite Hsl.
  - apply event_item_ok. by exists e.
Qed.

Lemma get_slots_state ev r ev' : get_slots ev = (r, ev') → ev' = ev.
Proof.
  unfold get_slots, mbind, M_bind.
  destruct (event_item "currentIntent" ev) as [[a|x] ev1] eqn:E;
    apply event_item_state in E; subst ev1; unfold lift; by intros [= _ <-].
Qed.

Lemma slot_read ev sl k v :
  event_slots ev sl → sl !! k = Some v →
  (slots ← get_slots; lift (slots.[k])) ev = (Ok v, ev).
Proof.
  intros Hs Hk. rewrite (bind_ok _ _ _ _ _ (get_slots_ok _ _ Hs)).
  unfold lift, subscript. by rewrite Hk.
Qed.

Lemma slot_missing ev sl k :
  event_slots ev sl → sl !! k = None →
  (slots ← get_slots; lift (slots.[k])) ev = (Raise (KeyError k), ev).
Proof.
  intros Hs Hk. rewrite (bind_ok _ _ _ _ _ (get_slots_ok _ _ Hs)).
  unfold lift, subscript. by rewrite Hk.
Qed.

Lemma intent_name_ok ev nm :
  event_name ev nm →
  (current_intent ← event_item "currentIntent";
   lift (current_intent.["name"])) ev = (Ok nm, ev).
Proof.
  intros (e & ci & -> & Hci & Hnm).
  rewrite (bind_ok _ _ _ (PDict ci) (PDict e)).
  - unfold lift, subscript. by rewrite Hnm.
  - apply event_item_ok. by exists e.
Qed.

(** The write to the slots leaves the other places of the event alone. *)
Lemma write_slots_field ev s k v :
  k ≠ "currentIntent" → event_field ev k v →
  event_field (write_slots s ev) k v.
Proof.
  intros Hk (e & -> & He). eexists. split; [reflexivity|].
  by rewrite lookup_alter_ne.
Qed.

Lemma write_slots_name ev s nm sl :
  event_slots ev sl → event_name ev nm → event_name (write_slots s ev) nm.
Proof.
  intros (e & ci & -> & Hci & Hsl) (e' & ci' & [= <-] & Hci' & Hnm).
  rewrite Hci in Hci'. injection Hci' as <-.
  eexists _, _. split; [reflexivity|]. split.
  - cbn. rewrite lookup_alter_eq, Hci. reflexivity.
  - by rewrite lookup_insert_ne.
Qed.

Lemma write_slots_slots ev sl sl' :
  event_slots ev sl → event_slots (write_slots (PDict sl') ev) sl'.
Proof.
  intros (e & ci & -> & Hci & Hsl).
  eexists _, _. split; [reflexivity|]. split.
  - cbn. rewrite lookup_alter_eq, Hci. reflexivity.
  - by rewrite lookup_insert_eq.
Qed.

(** ** Parsing and the validation rules *)

Lemma parse_int_int s n : int_of_str s = Some n → parse_int (PStr s) = Ok (PInt n).
Proof. intros H. unfold parse_int, py_int. by rewrite H. Qed.

Lemma parse_int_nan s : int_of_str s = None → parse_int (PStr s) = Ok PNan.
Proof. intros H. unfold parse_int, py_int. by rewrite H. Qed.

Lemma parse_int_none e : parse_int PNone ≠ Ok e.
Proof. discriminate. Qed.

Lemma parse_int_ok_str v a : parse_int v = Ok a → ∃ s, v = PStr s.
Proof. destruct v; try discriminate. eauto. Qed.

(** The age rules fire on the parsed age, whatever the amount is. *)
Lemma validate_age_negative age a amt ir :
  parse_int age = Ok a → num_lt a 0 = true →
  validate_data age amt ir
  = Ok (build_validation_result false (Some "age")
          (Some "This is not a valid age, please provide a different age.")).
Proof.
  intros Hp Hlt. destruct (parse_int_ok_str _ _ Hp) as [s ->].
  unfold validate_data. cbn [is_not_none]. rewrite Hp. cbn. by rewrite Hlt.
Qed.

Lemma validate_age_retired age a amt ir :
  parse_int age = Ok a → num_lt a 0 = false → num_gt a 65 = true →
  validate_data age amt ir
  = Ok (build_validation_result false (Some "age")
          (Some "Sorry, you are already at retirement age! I cannot recommend a portfolio.")).
Proof.
  intros Hp Hlt Hgt. destruct (parse_int_ok_str _ _ Hp) as [s ->].
  unfold validate_data. cbn [is_not_none]. rewrite Hp. cbn. by rewrite Hlt, Hgt.
Qed.

(** An age that passes leaves the verdict to the amount rule, as a null
    age does. *)
Lemma validate_age_passes age amt ir :
  age_rule_passes age → validate_data age amt ir = validate_data PNone amt ir.
Proof.
  intros [-> | (a & Hp & Hlt & Hgt)]; [done|].
  destruct (parse_int_ok_str _ _ Hp) as [s ->].
  unfold validate_data. cbn [is_not_none]. rewrite Hp. cbn. by rewrite Hlt, Hgt.
Qed.

Lemma validate_amount_low age m amt ir :
  age_rule_passes age → parse_int amt = Ok m → num_le m 4999 = true →
  validate_data age amt ir
  = Ok (build_validation_result false (Some "investmentAmount")
          (Some "Your investment amount must be greater than or equal to $5000, please provide a different investment amount.")).
Proof.
  intros Ha Hp Hle. rewrite (validate_age_passes _ _ _ Ha).
  destruct (parse_int_ok_str _ _ Hp) as [s ->].
  unfold validate_data. cbn [is_not_none]. rewrite Hp. cbn. by rewrite Hle.
Qed.

Lemma validate_both_pass age amt ir :
  age_rule_passes age → amount_rule_passes amt →
  validate_data age amt ir = Ok (build_validation_result true None None).
Proof.
  intros Ha Hm. rewrite (validate_age_passes _ _ _ Ha).
  destruct Hm as [-> | (m & Hp & Hle)]; [done|].
  destruct (parse_int_ok_str _ _ Hp) as [s ->].
  unfold validate_data. cbn [is_not_none]. rewrite Hp. cbn. by rewrite Hle.
Qed.

(** Every verdict of [validate_data] is one of four results. *)
Lemma validate_data_cases age amt ir vr :
  validate_data age amt ir = Ok vr →
  (vr = build_validation_result true None None
   ∧ age_rule_passes age ∧ amount_rule_passes amt)
  ∨ vr = build_validation_result false (Some "age")
           (Some "This is not a valid age, please provide a different age.")
  ∨ vr = build_validation_result false (Some "age")
           (Some "Sorry, you are already at retirement age! I cannot recommend a portfolio.")
  ∨ (vr = build_validation_result false (Some "investmentAmount")
           (Some "Your investment amount must be greater than or equal to $5000, please provide a different investment amount.")
     ∧ age_rule_passes age).
Proof.
  assert (Hamt : ∀ vr', validate_data PNone amt ir = Ok vr' →
    (vr' = build_validation_result true None None ∧ amount_rule_passes amt)
    ∨ vr' = build_validation_result false (Some "investmentAmount")
           (Some "Your investment amount must be greater than or equal to $5000, please provide a different investment amount.")).
  { intros vr'. unfold validate_data. cbn [is_not_none].
    destruct amt as [|m|d]; cbn [is_not_none].
    - intros [= <-]. left. split; [done | by left].
    - destruct (parse_int (PStr m)) as [k|x] eqn:Hp; [|discriminate].
      cbn. destruct (num_le k 4999) eqn:Hle; intros [= <-].
      + by right.
      + left. split; [done|]. right. by exists k.
    - discriminate. }
  destruct age as [|a|d].
  - intros H. destruct (Hamt _ H) as [[-> ?] | ->].
    + left. repeat split; [by left | done].
    + do 3 right. split; [done | by left].
  - destruct (parse_int (PStr a)) as [k|x] eqn:Hp.
    + destruct (num_lt k 0) eqn:Hlt.
      { rewrite (validate_age_negative _ _ _ _ Hp Hlt). intros [= <-]. auto. }
      destruct (num_gt k 65) eqn:Hgt.
      { rewrite (validate_age_retired _ _ _ _ Hp Hlt Hgt). intros [= <-]. auto. }
      assert (Ha : age_rule_passes (PStr a)) by (right; by exists k).
      rewrite (validate_age_passes _ _ _ Ha). intros H.
      destruct (Hamt _ H) as [[-> ?] | ->]; [left | do 3 right]; done.
    + unfold validate_data. cbn [is_not_none]. rewrite Hp. discriminate.
  - discriminate.
Qed.

(** The path conditions in numbers. *)
Lemma age_rule_passes_int s n :
  int_of_str s = Some n → age_rule_passes (PStr s) ↔ (0 ≤ n ≤ 65)%Z.
Proof.
  intros H. unfold age_rule_passes. rewrite (parse_int_int _ _ H). split.
  - intros [? | (a & [= <-] & Hlt & Hgt)]; [done|]. cbn in *. lia.
  - intros Hn. right. exists (PInt n). cbn. repeat split; lia.
Qed.

Lemma amount_rule_passes_int s n :
  int_of_str s = Some n → amount_rule_passes (PStr s) ↔ (5000 ≤ n)%Z.
Proof.
  intros H. unfold amount_rule_passes. rewrite (parse_int_int _ _ H). split.
  - intros [? | (a & [= <-] & Hle)]; [done|]. cbn in *. lia.
  - intros Hn. right. exists (PInt n). cbn. split; [done | lia].
Qed.

Lemma age_rule_passes_nan s : int_of_str s = None → age_rule_passes (PStr s).
Proof. intros H. right. exists PNan. by rewrite (parse_int_nan _ H). Qed.

Lemma amount_rule_passes_nan s : int_of_str s = None → amount_rule_passes (PStr s).
Proof. intros H. right. exists PNan. by rewrite (parse_int_nan _ H). Qed.

Lemma eq_str_true lit : eq_str (PStr lit) lit = true.
Proof. cbn. by apply bool_decide_eq_true_2. Qed.

Lemma eq_str_false v lit : v ≠ PStr lit → eq_str v lit = false.
Proof.
  intros Hne. destruct v; try done. cbn. apply bool_decide_eq_false_2. congruence.
Qed.

(** ** The handler on a request that has its four slots *)

Section Handler.
Variables (ev : pyval) (sl : gmap string pyval).
Variables (fn age amt rl src : pyval).
Hypothesis Hslots : event_slots ev sl.
Hypothesis Hfn : sl !! "firstName" = Some fn.
Hypothesis Hage : sl !! "age" = Some age.
Hypothesis Hamt : sl !! "investmentAmount" = Some amt.
Hypothesis Hrl : sl !! "riskLevel" = Some rl.
Hypothesis Hsrc : event_field ev "invocationSource" src.

(** Lines 139-146 read the slots and the source; what follows runs on
    the same event. *)
Lemma handler_reads (k : pyval → pyval → pyval → pyval → pyval → M pyval) :
  (first_name ← (slots ← get_slots; lift (slots.["firstName"]));
   age ← (slots ← get_slots; lift (slots.["age"]));
   investment_amount ← (slots ← get_slots; lift (slots.["investmentAmount"]));
   risk_level ← (slots ← get_slots; lift (slots.["riskLevel"]));
   source ← event_item "invocationSource";
   source ← event_item "invocationSource";
   k first_name age investment_amount risk_level source) ev
  = k fn age amt rl src ev.
Proof using Hslots Hfn Hage Hamt Hrl Hsrc.
  rewrite (bind_ok _ _ _ _ _ (slot_read _ _ _ _ Hslots Hfn)).
  rewrite (bind_ok _ _ _ _ _ (slot_read _ _ _ _ Hslots Hage)).
  rewrite (bind_ok _ _ _ _ _ (slot_read _ _ _ _ Hslots Hamt)).
  rewrite (bind_ok _ _ _ _ _ (slot_read _ _ _ _ Hslots Hrl)).
  rewrite (bind_ok _ _ _ _ _ (event_item_ok _ _ _ Hsrc)).
  by rewrite (bind_ok _ _ _ _ _ (event_item_ok _ _ _ Hsrc)).
Qed.

(** Validation stage, validation fails. *)
Lemma handler_elicits nm sa vr v msg :
  src = PStr "DialogCodeHook" →
  event_name ev nm → event_field ev "sessionAttributes" sa →
  validate_data age amt ev = Ok vr →
  isValid vr = false → violatedSlot vr = Some v → message vr = Some msg →
  recommend_portfolio ev
  = (Ok (elicit_slot sa nm (PDict (<[v := PNone]> sl)) (PStr v) msg),
     write_slots (PDict (<[v := PNone]> sl)) ev).
Proof using Hslots Hfn Hage Hamt Hrl Hsrc.
  intros Hdch Hnm Hsa Hvr Hinv Hv Hmsg.
  unfold recommend_portfolio. rewrite handler_reads, Hdch, eq_str_true.
  rewrite (bind_ok _ _ _ _ _ (get_slots_ok _ _ Hslots)).
  unfold the_event at 1. rewrite (bind_ok _ _ ev ev ev) by done.
  rewrite (bind_ok _ _ ev vr ev) by (unfold lift; by rewrite Hvr).
  rewrite Hinv, Hv. cbn [negb].
  set (sl' := <[v := PNone]> sl).
  rewrite (bind_ok _ _ ev (PDict sl') (write_slots (PDict sl') ev)) by done.
  rewrite (bind_ok _ _ _ sa _)
    by (apply event_item_ok, write_slots_field; done).
  rewrite (bind_ok _ _ _ nm _)
    by (apply intent_name_ok; by eapply write_slots_name).
  rewrite (bind_ok _ _ _ msg _) by (unfold lift, message_item; by rewrite Hmsg).
  unfold violated_slot_item. by rewrite Hv.
Qed.

(** Validation stage, validation passes. *)
Lemma handler_delegates sa :
  src = PStr "DialogCodeHook" →
  event_field ev "sessionAttributes" sa →
  validate_data age amt ev = Ok (build_validation_result true None None) →
  recommend_portfolio ev = (Ok (delegate sa (PDict sl)), ev).
Proof using Hslots Hfn Hage Hamt Hrl Hsrc.
  intros Hdch Hsa Hvr.
  unfold recommend_portfolio. rewrite handler_reads, Hdch, eq_str_true.
  rewrite (bind_ok _ _ _ _ _ (get_slots_ok _ _ Hslots)).
  unfold the_event at 1. rewrite (bind_ok _ _ ev ev ev) by done.
  rewrite (bind_ok _ _ ev _ ev) by (unfold lift; by rewrite Hvr).
  cbn [build_validation_result isValid negb].
  rewrite (bind_ok _ _ _ _ _ (event_item_ok _ _ _ Hsa)).
  by rewrite (bind_ok _ _ _ _ _ (get_slots_ok _ _ Hslots)).
Qed.

(** Fulfillment stage. *)
Lemma handler_fulfills r :
  src ≠ PStr "DialogCodeHook" → rl = PStr r →
  recommend_portfolio ev
  = (desired_risk ← lift (get_risks (str_lower r));
     session_attributes ← event_item "sessionAttributes";
     mret (close session_attributes (PStr "Fulfilled")
             (plain_text ("For a " +:+ r +:+ "-risk portfolio, invest in "
                          +:+ desired_risk)))) ev.
Proof using Hslots Hfn Hage Hamt Hrl Hsrc.
  intros Hne Hr. unfold recommend_portfolio.
  rewrite handler_reads, (eq_str_false _ _ Hne). by rewrite Hr.
Qed.

Lemma handler_no_lower :
  src ≠ PStr "DialogCodeHook" → (∀ r, rl ≠ PStr r) →
  recommend_portfolio ev = (Raise AttributeError, ev).
Proof using Hslots Hfn Hage Hamt Hrl Hsrc.
  intros Hne Hr. unfold recommend_portfolio.
  rewrite handler_reads, (eq_str_false _ _ Hne).
  generalize Hr. clear. intros Hr. destruct rl; try done. by destruct (Hr s).
Qed.
End Handler.

Lemma handler_delegates_passing ev sa sl fn age amt rl :
  event_slots ev sl →
  event_field ev "invocationSource" (PStr "DialogCodeHook") →
  event_field ev "sessionAttributes" sa →
  sl !! "firstName" = Some fn → sl !! "age" = Some age →
  sl !! "investmentAmount" = Some amt → sl !! "riskLevel" = Some rl →
  age_rule_passes age → amount_rule_passes amt →
  recommend_portfolio ev = (Ok (delegate sa (PDict sl)), ev).
Proof.
  intros Hs Hsrc Hsa Hfn Hage Hamt Hrl Ha Hm.
  apply (handler_delegates ev sl fn age amt rl _ Hs Hfn Hage Hamt Hrl Hsrc);
    [done | done |]. by apply validate_both_pass.
Qed.

(** ** The sample events *)

Lemma sample_event_slots source age amount risk :
  event_slots (sample_event source age amount risk)
    (sample_slots age amount risk).
Proof.
  eexists _, _. split; [reflexivity|]. split.
  - by rewrite lookup_insert_eq.
  - rewrite lookup_insert_ne by done. by rewrite lookup_insert_eq.
Qed.

Lemma sample_event_name source age amount risk :
  event_name (sample_event source age amount risk) (PStr "recommendPortfolio").
Proof.
  eexists _, _. split; [reflexivity|]. split; by rewrite lookup_insert_eq.
Qed.

Lemma sample_event_source source age amount risk :
  event_field (sample_event source age amount risk) "invocationSource"
    (PStr source).
Proof.
  eexists. split; [reflexivity|].
  rewrite lookup_insert_ne by done. by rewrite lookup_insert_eq.
Qed.

Lemma sample_event_attributes source age amount risk :
  event_field (sample_event source age amount risk) "sessionAttributes"
    (PDict (<["lang" := PStr "en"]> ∅)).
Proof.
  eexists. split; [reflexivity|].
  do 2 (rewrite lookup_insert_ne by done). by rewrite lookup_insert_eq.
Qed.

Lemma sample_slots_lookup age amount risk :
  sample_slots age amount risk !! "firstName" = Some (PStr "Ada") ∧
  sample_slots age amount risk !! "age" = Some age ∧
  sample_slots age amount risk !! "investmentAmount" = Some amount ∧
  sample_slots age amount risk !! "riskLevel" = Some risk.
Proof.
  unfold sample_slots. repeat split.
Qed.

Lemma sample_request source age amount risk :
  let ev := sample_event source age amount risk in
  let sl := sample_slots age amount risk in
  event_slots ev sl ∧ event_name ev (PStr "recommendPortfolio") ∧
  event_field ev "invocationSource" (PStr source) ∧
  event_field ev "sessionAttributes" (PDict (<["lang" := PStr "en"]> ∅)) ∧
  sl !! "firstName" = Some (PStr "Ada") ∧ sl !! "age" = Some age ∧
  sl !! "investmentAmount" = Some amount ∧ sl !! "riskLevel" = Some risk.
Proof.
  cbv zeta.
  split; [apply sample_event_slots|]. split; [apply sample_event_name|].
  split; [apply sample_event_source|].
  split; [apply sample_event_attributes|]. apply sample_slots_lookup.
Qed.

(** ** The validation stage *)

(** C1. In the validation stage, on a request with its four slots whose
    age is a string that parses to the integer [n]: for [n < 0] the
    handler returns ElicitSlot for the slot "age" with the invalid-age
    message; for [n > 65] it returns ElicitSlot for "age" with the
    retirement message; for [0 <= n <= 65] the age passes the age rules,
    and the verdict is the one a null age gets. *)
Theorem age_rule_elicits ev nm sa sl fn a amt rl n :
  event_slots ev sl → event_name ev nm →
  event_field ev "invocationSource" (PStr "DialogCodeHook") →
  event_field ev "sessionAttributes" sa →
  sl !! "firstName" = Some fn → sl !! "age" = Some (PStr a) →
  sl !! "investmentAmount" = Some amt → sl !! "riskLevel" = Some rl →
  int_of_str a = Some n →
  ((n < 0)%Z →
     recommend_portfolio ev
     = (Ok (PDict (<["sessionAttributes" := sa]>
                  (<["dialogAction" :=
                      PDict (<["type" := PStr "ElicitSlot"]>
                            (<["intentName" := nm]>
                            (<["slots" := PDict (<["age" := PNone]> sl)]>
                            (<["slotToElicit" := PStr "age"]>
                            (<["message" :=
                                PDict (<["contentType" := PStr "PlainText"]>
                                       (<["content" := PStr "This is not a valid age, please provide a different age."]> ∅))]> ∅)))))]> ∅))),
        write_slots (PDict (<["age" := PNone]> sl)) ev))
  ∧ ((65 < n)%Z →
     recommend_portfolio ev
     = (Ok (PDict (<["sessionAttributes" := sa]>
                  (<["dialogAction" :=
                      PDict (<["type" := PStr "ElicitSlot"]>
                            (<["intentName" := nm]>
                            (<["slots" := PDict (<["age" := PNone]> sl)]>
                            (<["slotToElicit" := PStr "age"]>
                            (<["message" :=
                                PDict (<["contentType" := PStr "PlainText"]>
                                       (<["content" := PStr "Sorry, you are already at retirement age! I cannot recommend a portfolio."]> ∅))]> ∅)))))]> ∅))),
        write_slots (PDict (<["age" := PNone]> sl)) ev))
  ∧ ((0 ≤ n ≤ 65)%Z →
     age_rule_passes (PStr a)
     ∧ validate_data (PStr a) amt ev = validate_data PNone amt ev
     ∧ ∀ vr, validate_data (PStr a) amt ev = Ok vr →
             violatedSlot vr ≠ Some "age").
Proof.
  intros Hs Hnm Hsrc Hsa Hfn Hage Hamt Hrl Hint.
  pose proof (parse_int_int _ _ Hint) as Hp.
  split; [|split].
  - intros Hn.
    eapply (handler_elicits ev sl fn (PStr a) amt rl _ Hs Hfn Hage Hamt Hrl Hsrc);
      try done.
    + apply (validate_age_negative _ _ _ _ Hp). cbn. lia.
    + done.
    + done.
    + done.
  - intros Hn.
    eapply (handler_elicits ev sl fn (PStr a) amt rl _ Hs Hfn Hage Hamt Hrl Hsrc);
      try done.
    + apply (validate_age_retired _ _ _ _ Hp); cbn; lia.
    + done.
    + done.
    + done.
  - intros Hn. assert (Ha : age_rule_passes (PStr a))
      by (by apply (age_rule_passes_int _ _ Hint)).
    split; [done|]. split; [by apply validate_age_passes|].
    intros vr. rewrite (validate_age_passes _ _ _ Ha).
    unfold validate_data. cbn [is_not_none].
    destruct amt as [|m|d]; cbn [is_not_none].
    + by intros [= <-].
    + destruct (parse_int (PStr m)) as [k|x]; [|discriminate]. cbn.
      destruct (num_le k 4999); by intros [= <-].
    + discriminate.
Qed.

Lemma age_rule_elicits_witness :
  recommend_portfolio (sample_event "DialogCodeHook" (PStr "-1") (PStr "5000") PNone)
  = (Ok (PDict (<["sessionAttributes" := PDict (<["lang" := PStr "en"]> ∅)]>
               (<["dialogAction" :=
                   PDict (<["type" := PStr "ElicitSlot"]>
                         (<["intentName" := PStr "recommendPortfolio"]>
                         (<["slots" := PDict (<["age" := PNone]> (sample_slots (PStr "-1") (PStr "5000") PNone))]>
                         (<["slotToElicit" := PStr "age"]>
                         (<["message" :=
                             PDict (<["contentType" := PStr "PlainText"]>
                                    (<["content" := PStr "This is not a valid age, please provide a different age."]> ∅))]> ∅)))))]> ∅))),
     write_slots
       (PDict (<["age" := PNone]> (sample_slots (PStr "-1") (PStr "5000") PNone)))
       (sample_event "DialogCodeHook" (PStr "-1") (PStr "5000") PNone))
  ∧ recommend_portfolio (sample_event "DialogCodeHook" (PStr "70") (PStr "5000") PNone)
  = (Ok (PDict (<["sessionAttributes" := PDict (<["lang" := PStr "en"]> ∅)]>
               (<["dialogAction" :=
                   PDict (<["type" := PStr "ElicitSlot"]>
                         (<["intentName" := PStr "recommendPortfolio"]>
                         (<["slots" := PDict (<["age" := PNone]> (sample_slots (PStr "70") (PStr "5000") PNone))]>
                         (<["slotToElicit" := PStr "age"]>
                         (<["message" :=
                             PDict (<["contentType" := PStr "PlainText"]>
                                    (<["content" := PStr "Sorry, you are already at retirement age! I cannot recommend a portfolio."]> ∅))]> ∅)))))]> ∅))),
     write_slots
       (PDict (<["age" := PNone]> (sample_slots (PStr "70") (PStr "5000") PNone)))
       (sample_event "DialogCodeHook" (PStr "70") (PStr "5000") PNone))
  ∧ age_rule_passes (PStr "65").
Proof.
  split; [|split].
  - destruct (sample_request "DialogCodeHook" (PStr "-1") (PStr "5000") PNone)
      as (H1&H2&H3&H4&H5&H6&H7&H8).
    apply (age_rule_elicits _ _ _ _ _ _ _ _ (-1)%Z H1 H2 H3 H4 H5 H6 H7 H8);
      [reflexivity | lia].
  - destruct (sample_request "DialogCodeHook" (PStr "70") (PStr "5000") PNone)
      as (H1&H2&H3&H4&H5&H6&H7&H8).
    apply (age_rule_elicits _ _ _ _ _ _ _ _ 70%Z H1 H2 H3 H4 H5 H6 H7 H8);
      [reflexivity | lia].
  - destruct (sample_request "DialogCodeHook" (PStr "65") (PStr "5000") PNone)
      as (H1&H2&H3&H4&H5&H6&H7&H8).
    apply (age_rule_elicits _ _ _ _ _ _ _ _ 65%Z H1 H2 H3 H4 H5 H6 H7 H8);
      [reflexivity | lia].
Defined.

(** C2. In the validation stage, on a request with its four slots whose
    age passes the age rules and whose investmentAmount is a string that
    parses to the integer [k]: for [k <= 4999] the handler returns
    ElicitSlot for the slot "investmentAmount" with the minimum-amount
    message; for [k >= 5000] the amount passes its rule and validation
    succeeds. *)
Theorem amount_rule_elicits ev nm sa sl fn age m rl k :
  event_slots ev sl → event_name ev nm →
  event_field ev "invocationSource" (PStr "DialogCodeHook") →
  event_field ev "sessionAttributes" sa →
  sl !! "firstName" = Some fn → sl !! "age" = Some age →
  sl !! "investmentAmount" = Some (PStr m) → sl !! "riskLevel" = Some rl →
  age_rule_passes age →
  int_of_str m = Some k →
  ((k ≤ 4999)%Z →
     recommend_portfolio ev
     = (Ok (PDict (<["sessionAttributes" := sa]>
                  (<["dialogAction" :=
                      PDict (<["type" := PStr "ElicitSlot"]>
                            (<["intentName" := nm]>
                            (<["slots" := PDict (<["investmentAmount" := PNone]> sl)]>
                            (<["slotToElicit" := PStr "investmentAmount"]>
                            (<["message" :=
                                PDict (<["contentType" := PStr "PlainText"]>
                                       (<["content" := PStr "Your investment amount must be greater than or equal to $5000, please provide a different investment amount."]> ∅))]> ∅)))))]> ∅))),
        write_slots (PDict (<["investmentAmount" := PNone]> sl)) ev))
  ∧ ((5000 ≤ k)%Z →
     amount_rule_passes (PStr m)
     ∧ validate_data age (PStr m) ev
       = Ok (build_validation_result true None None)).
Proof.
  intros Hs Hnm Hsrc Hsa Hfn Hage Hamt Hrl Ha Hint.
  pose proof (parse_int_int _ _ Hint) as Hp. split.
  - intros Hk.
    eapply (handler_elicits ev sl fn age (PStr m) rl _ Hs Hfn Hage Hamt Hrl Hsrc);
      [done | done | done
      | apply (validate_amount_low _ _ _ _ Ha Hp); cbn; lia
      | done | done | done].
  - intros Hk. assert (Hm : amount_rule_passes (PStr m))
      by (by apply (amount_rule_passes_int _ _ Hint)).
    split; [done|]. by apply validate_both_pass.
Qed.

Lemma amount_rule_elicits_witness :
  recommend_portfolio (sample_event "DialogCodeHook" (PStr "30") (PStr "4999") PNone)
  = (Ok (PDict (<["sessionAttributes" := PDict (<["lang" := PStr "en"]> ∅)]>
               (<["dialogAction" :=
                   PDict (<["type" := PStr "ElicitSlot"]>
                         (<["intentName" := PStr "recommendPortfolio"]>
                         (<["slots" :=
                             PDict (<["investmentAmount" := PNone]>
                                    (sample_slots (PStr "30") (PStr "4999") PNone))]>
                         (<["slotToElicit" := PStr "investmentAmount"]>
                         (<["message" :=
                             PDict (<["contentType" := PStr "PlainText"]>
                                    (<["content" := PStr "Your investment amount must be greater than or equal to $5000, please provide a different investment amount."]> ∅))]> ∅)))))]> ∅))),
     write_slots
       (PDict (<["investmentAmount" := PNone]>
                 (sample_slots (PStr "30") (PStr "4999") PNone)))
       (sample_event "DialogCodeHook" (PStr "30") (PStr "4999") PNone))
  ∧ validate_data (PStr "30") (PStr "5000")
      (sample_event "DialogCodeHook" (PStr "30") (PStr "5000") PNone)
    = Ok (build_validation_result true None None).
Proof.
  assert (Ha : age_rule_passes (PStr "30")).
  { right. exists (PInt 30). by repeat split. }
  split.
  - destruct (sample_request "DialogCodeHook" (PStr "30") (PStr "4999") PNone)
      as (H1&H2&H3&H4&H5&H6&H7&H8).
    apply (amount_rule_elicits _ _ _ _ _ _ _ _ 4999%Z H1 H2 H3 H4 H5 H6 H7 H8 Ha);
      [reflexivity | lia].
  - destruct (sample_request "DialogCodeHook" (PStr "30") (PStr "5000") PNone)
      as (H1&H2&H3&H4&H5&H6&H7&H8).
    apply (amount_rule_elicits _ _ _ _ _ _ _ _ 5000%Z H1 H2 H3 H4 H5 H6 H7 H8 Ha);
      [reflexivity | lia].
Defined.

(** C4. In the validation stage, on a request with its four slots in
    which the age passes the age rules and the investment amount passes
    the amount rule (a null slot passes), the handler returns Delegate
    with the slots dict and the session attributes of the event, and the
    event is left as it was. *)
Theorem valid_request_delegates ev sa sl fn age amt rl :
  event_slots ev sl →
  event_field ev "invocationSource" (PStr "DialogCodeHook") →
  event_field ev "sessionAttributes" sa →
  sl !! "firstName" = Some fn → sl !! "age" = Some age →
  sl !! "investmentAmount" = Some amt → sl !! "riskLevel" = Some rl →
  age_rule_passes age → amount_rule_passes amt →
  recommend_portfolio ev = (Ok (PDict (<["sessionAttributes" := sa]>
                                      (<["dialogAction" :=
                                          PDict (<["type" := PStr "Delegate"]>
                                                (<["slots" := PDict sl]> ∅))]> ∅))), ev)
  ∧ age_rule_passes PNone ∧ amount_rule_passes PNone.
Proof.
  intros Hs Hsrc Hsa Hfn Hage Hamt Hrl Ha Hm. split; [|split; by left].
  by eapply handler_delegates_passing.
Qed.

Lemma valid_request_delegates_witness :
  recommend_portfolio (sample_event "DialogCodeHook" (PStr "30") (PStr "5000") PNone)
  = (Ok (PDict (<["sessionAttributes" := PDict (<["lang" := PStr "en"]> ∅)]>
               (<["dialogAction" :=
                   PDict (<["type" := PStr "Delegate"]>
                         (<["slots" := PDict (sample_slots (PStr "30") (PStr "5000") PNone)]> ∅))]> ∅))),
     sample_event "DialogCodeHook" (PStr "30") (PStr "5000") PNone)
  ∧ recommend_portfolio (sample_event "DialogCodeHook" PNone PNone PNone)
  = (Ok (PDict (<["sessionAttributes" := PDict (<["lang" := PStr "en"]> ∅)]>
               (<["dialogAction" :=
                   PDict (<["type" := PStr "Delegate"]>
                         (<["slots" := PDict (sample_slots PNone PNone PNone)]> ∅))]> ∅))),
     sample_event "DialogCodeHook" PNone PNone PNone).
Proof.
  split.
  - destruct (sample_request "DialogCodeHook" (PStr "30") (PStr "5000") PNone)
      as (H1&H2&H3&H4&H5&H6&H7&H8).
    apply (valid_request_delegates _ _ _ _ _ _ _ H1 H3 H4 H5 H6 H7 H8).
    + right. exists (PInt 30). by repeat split.
    + right. exists (PInt 5000). by repeat split.
  - destruct (sample_request "DialogCodeHook" PNone PNone PNone)
      as (H1&H2&H3&H4&H5&H6&H7&H8).
    apply (valid_request_delegates _ _ _ _ _ _ _ H1 H3 H4 H5 H6 H7 H8); by left.
Defined.

(** C5. In the validation stage, on a request with its four slots for
    which validation fails, the handler returns ElicitSlot whose slots
    dict is the input slots with the violated slot set to null and every
    other entry as in the input, whose slotToElicit is the violated slot
    and whose message is the message of the validation result; the
    event's own slots dict is the same, written dict. *)
Theorem elicit_nulls_violated_slot ev nm sa sl fn age amt rl vr :
  event_slots ev sl → event_name ev nm →
  event_field ev "invocationSource" (PStr "DialogCodeHook") →
  event_field ev "sessionAttributes" sa →
  sl !! "firstName" = Some fn → sl !! "age" = Some age →
  sl !! "investmentAmount" = Some amt → sl !! "riskLevel" = Some rl →
  validate_data age amt ev = Ok vr → isValid vr = false →
  ∃ (v : string) (msg : pyval) (sl' : gmap string pyval) (ev' : pyval),
    violatedSlot vr = Some v ∧ message vr = Some msg ∧
    recommend_portfolio ev
    = (Ok (PDict (<["sessionAttributes" := sa]>
                 (<["dialogAction" :=
                     PDict (<["type" := PStr "ElicitSlot"]>
                           (<["intentName" := nm]>
                           (<["slots" := PDict sl']>
                           (<["slotToElicit" := PStr v]>
                           (<["message" := msg]> ∅)))))]> ∅))), ev') ∧
    sl' !! v = Some PNone ∧
    (∀ k, k ≠ v → sl' !! k = sl !! k) ∧
    dom sl' = dom sl ∧
    event_slots ev' sl'.
Proof.
  intros Hs Hnm Hsrc Hsa Hfn Hage Hamt Hrl Hvr Hinv.
  assert (∃ v msg, violatedSlot vr = Some v ∧ message vr = Some msg
                   ∧ is_Some (sl !! v)) as (v & msg & Hv & Hmsg & Hin).
  { destruct (validate_data_cases _ _ _ _ Hvr) as [[-> _] | [-> | [-> | [-> _]]]];
      [discriminate Hinv | | | ]; eexists _, _; repeat split; eauto. }
  exists v, msg, (<[v := PNone]> sl), (write_slots (PDict (<[v := PNone]> sl)) ev).
  split; [done|]. split; [done|]. split; [|split; [|split; [|split]]].
  - by eapply (handler_elicits ev sl fn age amt rl _ Hs Hfn Hage Hamt Hrl Hsrc).
  - by rewrite lookup_insert_eq.
  - intros k Hk. by rewrite lookup_insert_ne.
  - rewrite dom_insert_L. assert (v ∈ dom sl) by (by apply elem_of_dom).
    apply set_eq. intros k. rewrite elem_of_union, elem_of_singleton.
    split; [by intros [-> | ?] | by right].
  - by apply (write_slots_slots _ sl).
Qed.

Lemma elicit_nulls_violated_slot_witness :
  ∃ (v : string) (msg : pyval) (sl' : gmap string pyval) (ev' : pyval),
    violatedSlot (build_validation_result false (Some "investmentAmount")
      (Some "Your investment amount must be greater than or equal to $5000, please provide a different investment amount."))
    = Some v ∧
    message (build_validation_result false (Some "investmentAmount")
      (Some "Your investment amount must be greater than or equal to $5000, please provide a different investment amount."))
    = Some msg ∧
    recommend_portfolio (sample_event "DialogCodeHook" (PStr "30") (PStr "12") (PStr "low"))
    = (Ok (PDict (<["sessionAttributes" := PDict (<["lang" := PStr "en"]> ∅)]>
                 (<["dialogAction" :=
                     PDict (<["type" := PStr "ElicitSlot"]>
                           (<["intentName" := PStr "recommendPortfolio"]>
                           (<["slots" := PDict sl']>
                           (<["slotToElicit" := PStr v]>
                           (<["message" := msg]> ∅)))))]> ∅))), ev') ∧
    sl' !! v = Some PNone ∧
    (∀ k, k ≠ v → sl' !! k = sample_slots (PStr "30") (PStr "12") (PStr "low") !! k) ∧
    dom sl' = dom (sample_slots (PStr "30") (PStr "12") (PStr "low")) ∧
    event_slots ev' sl'.
Proof.
  destruct (sample_request "DialogCodeHook" (PStr "30") (PStr "12") (PStr "low"))
    as (H1&H2&H3&H4&H5&H6&H7&H8).
  apply (elicit_nulls_violated_slot _ _ _ _ _ _ _ _ _ H1 H2 H3 H4 H5 H6 H7 H8);
    reflexivity.
Defined.

(** C6. The age rules are decided before the amount rule: when the age
    parses to an integer outside 0..65 and the investment amount parses
    to an integer of at most 4999, the verdict names the slot "age". And
    every verdict reports at most one violation: it is valid with no
    violated slot and no message, or invalid with the one violated slot
    "age" or "investmentAmount" and a message. *)
Theorem first_violation_wins :
  (∀ a m n k ir,
     int_of_str a = Some n → (n < 0 ∨ 65 < n)%Z →
     int_of_str m = Some k → (k ≤ 4999)%Z →
     ∃ vr, validate_data (PStr a) (PStr m) ir = Ok vr ∧
           isValid vr = false ∧ violatedSlot vr = Some "age")
  ∧ (∀ age amt ir vr,
       validate_data age amt ir = Ok vr →
       (isValid vr = true ∧ violatedSlot vr = None ∧ message vr = None)
       ∨ (isValid vr = false ∧ is_Some (message vr) ∧
          (violatedSlot vr = Some "age"
           ∨ violatedSlot vr = Some "investmentAmount"))).
Proof.
  split.
  - intros a m n k ir Ha Hn Hm Hk.
    pose proof (parse_int_int _ _ Ha) as Hp.
    destruct (Z.ltb_spec n 0) as [Hneg | Hpos].
    + eexists. split; [apply (validate_age_negative _ _ _ _ Hp); cbn; lia|].
      by split.
    + eexists. split; [apply (validate_age_retired _ _ _ _ Hp); cbn; lia|].
      by split.
  - intros age amt ir vr Hvr.
    destruct (validate_data_cases _ _ _ _ Hvr) as [[-> _] | [-> | [-> | [-> _]]]].
    + left. by repeat split.
    + right. split; [done|]. split; [by eexists | by left].
    + right. split; [done|]. split; [by eexists | by left].
    + right. split; [done|]. split; [by eexists | by right].
Qed.

Lemma first_violation_wins_witness :
  (∃ vr, validate_data (PStr "-3") (PStr "100") PNone = Ok vr ∧
         isValid vr = false ∧ violatedSlot vr = Some "age")
  ∧ (∃ vr, validate_data (PStr "66") (PStr "4999") PNone = Ok vr ∧
           isValid vr = false ∧ violatedSlot vr = Some "age").
Proof.
  split.
  - apply (proj1 first_violation_wins "-3" "100" (-3)%Z 100%Z PNone);
      [reflexivity | lia | reflexivity | lia].
  - apply (proj1 first_violation_wins "66" "4999" 66%Z 4999%Z PNone);
      [reflexivity | lia | reflexivity | lia].
Defined.



(** ** The fulfillment stage *)

Lemma get_risks_unknown k :
  k ∉ ["none"; "low"; "medium"; "high"] → get_risks k = Raise (KeyError k).
Proof.
  rewrite !not_elem_of_cons. intros (H1 & H2 & H3 & H4 & _).
  unfold get_risks, risk_levels.
  rewrite !lookup_insert_ne by done. by rewrite lookup_empty.
Qed.

(** C3. In the fulfillment stage (the invocation source is not
    "DialogCodeHook"), on a request with its four slots whose riskLevel
    is a string: when it lowercases to one of the keys "none", "low",
    "medium", "high", the handler returns Close with fulfillmentState
    "Fulfilled" and a PlainText message whose content ends with the
    allocation of that key; when it lowercases to anything else, the
    handler raises [KeyError] on that key and returns nothing. *)
Theorem fulfillment_closes ev sa sl fn age amt r src :
  event_slots ev sl →
  event_field ev "invocationSource" src → src ≠ PStr "DialogCodeHook" →
  sl !! "firstName" = Some fn → sl !! "age" = Some age →
  sl !! "investmentAmount" = Some amt → sl !! "riskLevel" = Some (PStr r) →
  (∀ key alloc : string,
     (key, alloc) ∈ [("none", "100% bonds (AGG), 0% equities (SPY)");
                     ("low", "60% bonds (AGG), 40% equities (SPY)");
                     ("medium", "40% bonds (AGG), 60% equities (SPY)");
                     ("high", "20% bonds (AGG), 80% equities (SPY)")] →
     str_lower r = key →
     event_field ev "sessionAttributes" sa →
     recommend_portfolio ev
     = (Ok (PDict (<["sessionAttributes" := sa]>
                  (<["dialogAction" :=
                      PDict (<["type" := PStr "Close"]>
                            (<["fulfillmentState" := PStr "Fulfilled"]>
                            (<["message" :=
                                PDict (<["contentType" := PStr "PlainText"]>
                                       (<["content" := PStr ("For a " +:+ r +:+ "-risk portfolio, invest in " +:+ alloc)]> ∅))]> ∅)))]> ∅))), ev))
  ∧ (str_lower r ∉ ["none"; "low"; "medium"; "high"] →
     recommend_portfolio ev = (Raise (KeyError (str_lower r)), ev)).
Proof.
  intros Hs Hsrc Hne Hfn Hage Hamt Hrl.
  rewrite (handler_fulfills ev sl fn age amt (PStr r) src Hs Hfn Hage Hamt Hrl
             Hsrc r Hne eq_refl).
  split.
  - intros key alloc Hin Hkey Hsa.
    assert (Hget : get_risks (str_lower r) = Ok alloc).
    { rewrite Hkey. clear -Hin.
      repeat (apply elem_of_cons in Hin as [[= -> ->] | Hin]; [reflexivity|]).
      by apply elem_of_nil in Hin. }
    rewrite (bind_ok _ _ _ alloc ev) by (unfold lift; by rewrite Hget).
    by rewrite (bind_ok _ _ _ _ _ (event_item_ok _ _ _ Hsa)).
  - intros Hnot. apply bind_raise. unfold lift.
    by rewrite (get_risks_unknown _ Hnot).
Qed.

Lemma fulfillment_closes_witness :
  recommend_portfolio
    (sample_event "FulfillmentCodeHook" (PStr "30") (PStr "5000") (PStr "Low"))
  = (Ok (PDict (<["sessionAttributes" := PDict (<["lang" := PStr "en"]> ∅)]>
               (<["dialogAction" :=
                   PDict (<["type" := PStr "Close"]>
                         (<["fulfillmentState" := PStr "Fulfilled"]>
                         (<["message" :=
                             PDict (<["contentType" := PStr "PlainText"]>
                                    (<["content" := PStr "For a Low-risk portfolio, invest in 60% bonds (AGG), 40% equities (SPY)"]> ∅))]> ∅)))]> ∅))),
     sample_event "FulfillmentCodeHook" (PStr "30") (PStr "5000") (PStr "Low"))
  ∧ recommend_portfolio
      (sample_event "FulfillmentCodeHook" (PStr "30") (PStr "5000") (PStr "Very High"))
    = (Raise (KeyError "very high"),
       sample_event "FulfillmentCodeHook" (PStr "30") (PStr "5000") (PStr "Very High")).
Proof.
  split.
  - destruct (sample_request "FulfillmentCodeHook" (PStr "30") (PStr "5000") (PStr "Low"))
      as (H1&H2&H3&H4&H5&H6&H7&H8).
    apply (proj1 (fulfillment_closes _ (PDict (<["lang" := PStr "en"]> ∅))
                    _ _ _ _ "Low" _ H1 H3 ltac:(discriminate) H5 H6 H7 H8)
             "low" "60% bonds (AGG), 40% equities (SPY)");
      [ apply list_elem_of_further, list_elem_of_here | reflexivity | exact H4 ].
  - destruct (sample_request "FulfillmentCodeHook" (PStr "30") (PStr "5000") (PStr "Very High"))
      as (H1&H2&H3&H4&H5&H6&H7&H8).
    apply (proj2 (fulfillment_closes _ PNone
                    _ _ _ _ "Very High" _ H1 H3 ltac:(discriminate) H5 H6 H7 H8)).
    rewrite !not_elem_of_cons. repeat split; try discriminate.
    apply not_elem_of_nil.
Defined.

(** ** Dispatch *)

(** C8. Dispatch routes by the intent name: for the name
    "recommendPortfolio" it runs the handler; for any other string it
    raises the exception "Intent with name ... not supported", returns no
    response and leaves the event alone; a name that is no string raises
    too ([TypeError], from the concatenation). *)
Theorem dispatch_by_intent_name ev nm :
  event_name ev nm →
  (nm = PStr "recommendPortfolio" →
     dispatch ev = recommend_portfolio ev
     ∧ ∀ context, lambda_handler context ev = recommend_portfolio ev)
  ∧ (∀ n, nm = PStr n → n ≠ "recommendPortfolio" →
       dispatch ev
       = (Raise (Exception ("Intent with name " +:+ n +:+ " not supported")), ev))
  ∧ (nm ≠ PStr "recommendPortfolio" →
       ∃ e, dispatch ev = (Raise e, ev)
            ∧ ∀ context, lambda_handler context ev = (Raise e, ev)).
Proof.
  intros Hnm. unfold lambda_handler, dispatch.
  rewrite (bind_ok _ _ _ _ _ (intent_name_ok _ _ Hnm)).
  split; [|split].
  - intros ->. by rewrite eq_str_true.
  - intros n -> Hn. rewrite eq_str_false by congruence. done.
  - intros Hne. rewrite (eq_str_false _ _ Hne). destruct nm; by eexists.
Qed.

Lemma dispatch_by_intent_name_witness :
  dispatch
    (PDict (<["currentIntent" := PDict (<["name" := PStr "orderPizza"]> ∅)]> ∅))
  = (Raise (Exception "Intent with name orderPizza not supported"),
     PDict (<["currentIntent" := PDict (<["name" := PStr "orderPizza"]> ∅)]> ∅)).
Proof.
  assert (Hnm : event_name
    (PDict (<["currentIntent" := PDict (<["name" := PStr "orderPizza"]> ∅)]> ∅))
    (PStr "orderPizza")).
  { eexists _, _. split; [reflexivity|]. split; by rewrite lookup_insert_eq. }
  apply (proj1 (proj2 (dispatch_by_intent_name _ _ Hnm)) "orderPizza" eq_refl).
  discriminate.
Defined.

(** ** The slots the handler reads *)

(** C10. The handler reads the four slots before anything else: when
    one of the keys "firstName", "age", "investmentAmount", "riskLevel"
    is absent from the slots dict it raises [KeyError] on the first
    absent key and returns no response, in either stage; and in the
    fulfillment stage a null riskLevel raises [AttributeError] (null has
    no [lower]). *)
Theorem missing_slot_raises ev sl :
  event_slots ev sl →
  (sl !! "firstName" = None →
     recommend_portfolio ev = (Raise (KeyError "firstName"), ev))
  ∧ (is_Some (sl !! "firstName") → sl !! "age" = None →
     recommend_portfolio ev = (Raise (KeyError "age"), ev))
  ∧ (is_Some (sl !! "firstName") → is_Some (sl !! "age") →
     sl !! "investmentAmount" = None →
     recommend_portfolio ev = (Raise (KeyError "investmentAmount"), ev))
  ∧ (is_Some (sl !! "firstName") → is_Some (sl !! "age") →
     is_Some (sl !! "investmentAmount") → sl !! "riskLevel" = None →
     recommend_portfolio ev = (Raise (KeyError "riskLevel"), ev))
  ∧ (∀ k, k ∈ ["firstName"; "age"; "investmentAmount"; "riskLevel"] →
       sl !! k = None →
       ∃ k', recommend_portfolio ev = (Raise (KeyError k'), ev))
  ∧ (∀ src, is_Some (sl !! "firstName") → is_Some (sl !! "age") →
       is_Some (sl !! "investmentAmount") → sl !! "riskLevel" = Some PNone →
       event_field ev "invocationSource" src → src ≠ PStr "DialogCodeHook" →
       recommend_portfolio ev = (Raise AttributeError, ev)).
Proof.
  intros Hs.
  assert (H1 : sl !! "firstName" = None →
    recommend_portfolio ev = (Raise (KeyError "firstName"), ev)).
  { intros Hk. unfold recommend_portfolio.
    by rewrite (bind_raise _ _ _ _ _ (slot_missing _ _ _ Hs Hk)). }
  assert (H2 : is_Some (sl !! "firstName") → sl !! "age" = None →
    recommend_portfolio ev = (Raise (KeyError "age"), ev)).
  { intros [fn Hfn] Hk. unfold recommend_portfolio.
    rewrite (bind_ok _ _ _ _ _ (slot_read _ _ _ _ Hs Hfn)).
    by rewrite (bind_raise _ _ _ _ _ (slot_missing _ _ _ Hs Hk)). }
  assert (H3 : is_Some (sl !! "firstName") → is_Some (sl !! "age") →
    sl !! "investmentAmount" = None →
    recommend_portfolio ev = (Raise (KeyError "investmentAmount"), ev)).
  { intros [fn Hfn] [age Hage] Hk. unfold recommend_portfolio.
    rewrite (bind_ok _ _ _ _ _ (slot_read _ _ _ _ Hs Hfn)).
    rewrite (bind_ok _ _ _ _ _ (slot_read _ _ _ _ Hs Hage)).
    by rewrite (bind_raise _ _ _ _ _ (slot_missing _ _ _ Hs Hk)). }
  assert (H4 : is_Some (sl !! "firstName") → is_Some (sl !! "age") →
    is_Some (sl !! "investmentAmount") → sl !! "riskLevel" = None →
    recommend_portfolio ev = (Raise (KeyError "riskLevel"), ev)).
  { intros [fn Hfn] [age Hage] [amt Hamt] Hk. unfold recommend_portfolio.
    rewrite (bind_ok _ _ _ _ _ (slot_read _ _ _ _ Hs Hfn)).
    rewrite (bind_ok _ _ _ _ _ (slot_read _ _ _ _ Hs Hage)).
    rewrite (bind_ok _ _ _ _ _ (slot_read _ _ _ _ Hs Hamt)).
    by rewrite (bind_raise _ _ _ _ _ (slot_missing _ _ _ Hs Hk)). }
  repeat (split; [done|]). split.
  - intros k Hin Hk.
    destruct (sl !! "firstName") as [fn|] eqn:Hfn; [|eauto].
    destruct (sl !! "age") as [age|] eqn:Hage; [|eauto].
    destruct (sl !! "investmentAmount") as [amt|] eqn:Hamt; [|eauto].
    destruct (sl !! "riskLevel") as [rl|] eqn:Hrl; [|eauto].
    exfalso. clear -Hin Hk Hfn Hage Hamt Hrl.
    repeat (apply elem_of_cons in Hin as [-> | Hin]; [congruence|]).
    by apply elem_of_nil in Hin.
  - intros src [fn Hfn] [age Hage] [amt Hamt] Hrl Hsrc Hne.
    by apply (handler_no_lower ev sl fn age amt PNone src Hs Hfn Hage Hamt Hrl Hsrc).
Qed.

Lemma missing_slot_raises_witness :
  recommend_portfolio
    (PDict (<["currentIntent" :=
               PDict (<["name" := PStr "recommendPortfolio"]>
                     (<["slots" := PDict (<["age" := PStr "30"]> ∅)]> ∅))]>
           (<["invocationSource" := PStr "DialogCodeHook"]> ∅)))
  = (Raise (KeyError "firstName"),
     PDict (<["currentIntent" :=
               PDict (<["name" := PStr "recommendPortfolio"]>
                     (<["slots" := PDict (<["age" := PStr "30"]> ∅)]> ∅))]>
           (<["invocationSource" := PStr "DialogCodeHook"]> ∅)))
  ∧ recommend_portfolio
      (sample_event "FulfillmentCodeHook" (PStr "30") (PStr "5000") PNone)
    = (Raise AttributeError,
       sample_event "FulfillmentCodeHook" (PStr "30") (PStr "5000") PNone).
Proof.
  split.
  - assert (Hs : event_slots
      (PDict (<["currentIntent" :=
                 PDict (<["name" := PStr "recommendPortfolio"]>
                       (<["slots" := PDict (<["age" := PStr "30"]> ∅)]> ∅))]>
             (<["invocationSource" := PStr "DialogCodeHook"]> ∅)))
      (<["age" := PStr "30"]> ∅)).
    { eexists _, _. split; [reflexivity|]. split; [by rewrite lookup_insert_eq|].
      rewrite lookup_insert_ne by done. by rewrite lookup_insert_eq. }
    apply (proj1 (missing_slot_raises _ _ Hs)). reflexivity.
  - destruct (sample_request "FulfillmentCodeHook" (PStr "30") (PStr "5000") PNone)
      as (H1&H2&H3&H4&H5&H6&H7&H8).
    apply (proj2 (proj2 (proj2 (proj2 (proj2 (missing_slot_raises _ _ H1)))))
             (PStr "FulfillmentCodeHook"));
      [by eexists | by eexists | by eexists | exact H8 | exact H3 | discriminate].
Defined.

(** ** The shape of a response *)

(** Whatever the event, a response of the handler comes from one of the
    three builders. *)
Lemma recommend_portfolio_returns ev r ev' :
  recommend_portfolio ev = (Ok r, ev') →
  (∃ sa nm sl v msg, r = elicit_slot sa nm sl v msg)
  ∨ (∃ sa sl, r = delegate sa sl)
  ∨ (∃ sa msg, r = close sa (PStr "Fulfilled") msg).
Proof.
  unfold recommend_portfolio. intros H.
  apply bind_inv in H as (first_name & ? & _ & H).
  apply bind_inv in H as (age & ? & _ & H).
  apply bind_inv in H as (investment_amount & ? & _ & H).
  apply bind_inv in H as (risk_level & ? & _ & H).
  apply bind_inv in H as (source0 & ? & _ & H).
  apply bind_inv in H as (source & ? & _ & H).
  destruct (eq_str source "DialogCodeHook").
  - apply bind_inv in H as (slots & ? & _ & H).
    apply bind_inv in H as (intent_request & ? & _ & H).
    apply bind_inv in H as (vr & ? & _ & H).
    destruct (negb (isValid vr)).
    + destruct (violatedSlot vr) as [violated|]; [|discriminate H].
      apply bind_inv in H as (slots' & ? & _ & H).
      apply bind_inv in H as (sa & ? & _ & H).
      apply bind_inv in H as (nm & ? & _ & H).
      apply bind_inv in H as (msg & ? & _ & H).
      injection H as <- _. left. by eexists _, _, _, _, _.
    + apply bind_inv in H as (sa & ? & _ & H).
      apply bind_inv in H as (slots' & ? & _ & H).
      injection H as <- _. right. left. by eexists _, _.
  - destruct risk_level as [|risk|]; [discriminate H | | discriminate H].
    apply bind_inv in H as (desired_risk & ? & _ & H).
    apply bind_inv in H as (sa & ? & _ & H).
    injection H as <- _. right. right. by eexists _, _.
Qed.

Lemma dispatch_returns ev r ev' :
  dispatch ev = (Ok r, ev') → recommend_portfolio ev = (Ok r, ev').
Proof.
  unfold dispatch. intros H.
  apply bind_inv in H as (intent_name & ev1 & Hnm & H).
  assert (ev1 = ev) as ->.
  { apply bind_inv in Hnm as (ci & ev0 & Hci & Hnm).
    apply event_item_state in Hci as ->. by apply lift_inv in Hnm as [_ ->]. }
  destruct (eq_str intent_name "recommendPortfolio"); [done|].
  destruct intent_name; discriminate H.
Qed.

(** C9. Every response that the handler returns is a dict with the two
    keys "sessionAttributes" and "dialogAction", and its dialog action
    is one of three variants, told apart by "type", with the keys of
    that variant and no others: ElicitSlot with intentName, slots,
    slotToElicit and message; Delegate with slots; Close with
    fulfillmentState and message. *)
Theorem response_is_one_variant context ev r ev' :
  lambda_handler context ev = (Ok r, ev') →
  ∃ (sa : pyval) (da : gmap string pyval),
    r = PDict (<["sessionAttributes" := sa]> (<["dialogAction" := PDict da]> ∅))
    ∧ ((da !! "type" = Some (PStr "ElicitSlot") ∧
        dom da = ({["type"; "intentName"; "slots"; "slotToElicit"; "message"]}
                    : gset string))
       ∨ (da !! "type" = Some (PStr "Delegate") ∧
          dom da = ({["type"; "slots"]} : gset string))
       ∨ (da !! "type" = Some (PStr "Close") ∧
          dom da = ({["type"; "fulfillmentState"; "message"]} : gset string))).
Proof.
  unfold lambda_handler. intros H.
  apply dispatch_returns, recommend_portfolio_returns in H
    as [(sa & nm & sl & v & msg & ->) | [(sa & sl & ->) | (sa & msg & ->)]];
    eexists sa, _; (split; [reflexivity|]).
  - left. split; [by rewrite lookup_insert_eq|].
    dom_keys.
  - right. left. split; [by rewrite lookup_insert_eq|].
    dom_keys.
  - right. right. split; [by rewrite lookup_insert_eq|].
    dom_keys.
Qed.

Lemma response_is_one_variant_witness :
  ∃ (sa : pyval) (da : gmap string pyval),
    delegate (PDict (<["lang" := PStr "en"]> ∅))
      (PDict (sample_slots (PStr "30") (PStr "5000") PNone))
    = PDict (<["sessionAttributes" := sa]> (<["dialogAction" := PDict da]> ∅))
    ∧ ((da !! "type" = Some (PStr "ElicitSlot") ∧
        dom da = ({["type"; "intentName"; "slots"; "slotToElicit"; "message"]}
                    : gset string))
       ∨ (da !! "type" = Some (PStr "Delegate") ∧
          dom da = ({["type"; "slots"]} : gset string))
       ∨ (da !! "type" = Some (PStr "Close") ∧
          dom da = ({["type"; "fulfillmentState"; "message"]} : gset string))).
Proof.
  apply (response_is_one_variant PNone
           (sample_event "DialogCodeHook" (PStr "30") (PStr "5000") PNone) _
           (sample_event "DialogCodeHook" (PStr "30") (PStr "5000") PNone)).
  vm_compute. reflexivity.
Defined.

(** ** Outcomes of the handler, read backwards *)

Lemma bind_cases {A B : Type} (m : M A) (f : A → M B) ev r ev2 :
  (m ≫= f) ev = (r, ev2) →
  (∃ e, m ev = (Raise e, ev2) ∧ r = Raise e)
  ∨ (∃ a ev1, m ev = (Ok a, ev1) ∧ f a ev1 = (r, ev2)).
Proof.
  unfold mbind, M_bind. destruct (m ev) as [[a|e] ev1]; intros H.
  - right. by exists a, ev1.
  - injection H as <- <-. left. by exists e.
Qed.

Lemma reads_lift {A : Type} (r : res A) : reads (lift r).
Proof. intros ev r' ev'. unfold lift. by intros [= _ <-]. Qed.

Lemma reads_the_event : reads the_event.
Proof. intros ev r' ev'. unfold the_event. by intros [= _ <-]. Qed.

Lemma reads_raise {A : Type} e : reads (@raise A e).
Proof. intros ev r' ev'. unfold raise. by intros [= _ <-]. Qed.

Lemma reads_ret {A : Type} (a : A) : reads (mret a).
Proof. intros ev r' ev'. unfold mret, M_ret. by intros [= _ <-]. Qed.

Lemma reads_bind {A B : Type} (m : M A) (f : A → M B) :
  reads m → (∀ a, reads (f a)) → reads (m ≫= f).
Proof.
  intros Hm Hf ev r ev' H.
  apply bind_cases in H as [(e & H & _) | (a & ev1 & H1 & H2)].
  - by apply Hm in H.
  - apply Hm in H1 as ->. by apply Hf in H2.
Qed.

Lemma reads_event_item k : reads (event_item k).
Proof. intros ev r ev'. apply event_item_state. Qed.

Lemma reads_get_slots : reads get_slots.
Proof. intros ev r ev'. apply get_slots_state. Qed.

Lemma reads_slot k : reads (slots ← get_slots; lift (slots.[k])).
Proof. apply reads_bind; [apply reads_get_slots | intros; apply reads_lift]. Qed.

Lemma reads_intent_name :
  reads (current_intent ← event_item "currentIntent";
         lift (current_intent.["name"])).
Proof. apply reads_bind; [apply reads_event_item | intros; apply reads_lift]. Qed.

(** A step that only reads: it raises and the event is as before, or it
    hands a value on to the rest, on the same event. *)
Lemma bind_reads_cases {A B : Type} (m : M A) (f : A → M B) ev r ev2 :
  reads m → (m ≫= f) ev = (r, ev2) →
  (ev2 = ev ∧ ∃ e, m ev = (Raise e, ev) ∧ r = Raise e)
  ∨ (∃ a, m ev = (Ok a, ev) ∧ f a ev = (r, ev2)).
Proof.
  intros Hm H. apply bind_cases in H as [(e & H & ->) | (a & ev1 & H1 & H2)].
  - pose proof (Hm _ _ _ H) as ->. left. split; [done|]. by exists e.
  - pose proof (Hm _ _ _ H1) as ->. right. by exists a.
Qed.

Lemma event_field_unique ev k v v' :
  event_field ev k v → event_field ev k v' → v = v'.
Proof. intros (e & -> & H) (e' & [= <-] & H'). congruence. Qed.

Lemma event_slots_unique ev sl sl' :
  event_slots ev sl → event_slots ev sl' → sl = sl'.
Proof.
  intros (e & ci & -> & Hci & Hsl) (e' & ci' & [= <-] & Hci' & Hsl'). congruence.
Qed.

Lemma event_lacks_item ev k :
  event_lacks ev k → event_item k ev = (Raise (KeyError k), ev).
Proof.
  intros (e & -> & Hk). unfold event_item, the_event, lift, mbind, M_bind.
  cbn. by rewrite Hk.
Qed.

Lemma event_item_inv ev k v ev' :
  event_item k ev = (Ok v, ev') → event_field ev k v.
Proof.
  unfold event_item, the_event, lift, mbind, M_bind, subscript.
  destruct ev as [| |e]; try discriminate.
  destruct (e !! k) as [x|] eqn:Hk; [|discriminate].
  intros [= <- _]. by exists e.
Qed.

Lemma get_slots_inv ev s ev' :
  get_slots ev = (Ok s, ev') →
  ∃ e ci : gmap string pyval,
    ev = PDict e ∧ e !! "currentIntent" = Some (PDict ci) ∧
    ci !! "slots" = Some s.
Proof.
  unfold get_slots. intros H.
  apply bind_inv in H as (c & ev1 & Hc & H).
  apply event_item_inv in Hc as (e & -> & Hc).
  apply lift_inv in H as [H _]. unfold subscript in H.
  destruct c as [| |ci]; try discriminate.
  destruct (ci !! "slots") as [x|] eqn:Hs; [|discriminate].
  injection H as <-. by exists e, ci.
Qed.

Lemma slot_read_inv ev k v ev' :
  (slots ← get_slots; lift (slots.[k])) ev = (Ok v, ev') →
  ∃ sl, event_slots ev sl ∧ sl !! k = Some v.
Proof.
  intros H. apply bind_inv in H as (s & ev1 & Hs & H).
  apply get_slots_inv in Hs as (e & ci & -> & Hci & Hs).
  apply lift_inv in H as [H _]. unfold subscript in H.
  destruct s as [| |sl]; try discriminate.
  destruct (sl !! k) as [x|] eqn:Hk; [|discriminate].
  injection H as <-. exists sl. split; [by exists e, ci | done].
Qed.

Lemma intent_name_inv ev nm ev' :
  (current_intent ← event_item "currentIntent";
   lift (current_intent.["name"])) ev = (Ok nm, ev') →
  event_name ev nm.
Proof.
  intros H. apply bind_inv in H as (c & ev1 & Hc & H).
  apply event_item_inv in Hc as (e & -> & Hc).
  apply lift_inv in H as [H _]. unfold subscript in H.
  destruct c as [| |ci]; try discriminate.
  destruct (ci !! "name") as [x|] eqn:Hn; [|discriminate].
  injection H as <-. by exists e, ci.
Qed.

(** Reading the written event back. *)
Lemma write_slots_field_inv ev s k v :
  k ≠ "currentIntent" → event_field (write_slots s ev) k v → event_field ev k v.
Proof.
  intros Hk (e' & He' & Hv). destruct ev as [| |e]; try discriminate.
  injection He' as <-. rewrite lookup_alter_ne in Hv by done. by exists e.
Qed.

Lemma write_slots_name_inv ev s nm :
  event_name (write_slots s ev) nm → event_name ev nm.
Proof.
  intros (e' & ci' & He' & Hci' & Hnm). destruct ev as [| |e]; try discriminate.
  injection He' as <-. rewrite lookup_alter_eq in Hci'.
  destruct (e !! "currentIntent") as [[| |ci]|] eqn:Hci; try discriminate.
  injection Hci' as <-. rewrite lookup_insert_ne in Hnm by done.
  by exists e, ci.
Qed.

(** A response of the handler, traced back to the event: the slots, the
    source and the session attributes were there, and the response is
    the one of the branch taken. *)
Lemma handler_returns_inv ev r ev' :
  recommend_portfolio ev = (Ok r, ev') →
  ∃ sl fn age amt rl src sa,
    event_slots ev sl ∧ sl !! "firstName" = Some fn ∧ sl !! "age" = Some age ∧
    sl !! "investmentAmount" = Some amt ∧ sl !! "riskLevel" = Some rl ∧
    event_field ev "invocationSource" src ∧
    event_field ev "sessionAttributes" sa ∧
    ((src = PStr "DialogCodeHook" ∧
      ∃ vr, validate_data age amt ev = Ok vr ∧
        ((isValid vr = true ∧ r = delegate sa (PDict sl) ∧ ev' = ev)
         ∨ (isValid vr = false ∧
            ∃ v msg nm, violatedSlot vr = Some v ∧ message vr = Some msg ∧
              event_name ev nm ∧
              r = elicit_slot sa nm (PDict (<[v := PNone]> sl)) (PStr v) msg ∧
              ev' = write_slots (PDict (<[v := PNone]> sl)) ev)))
     ∨ (src ≠ PStr "DialogCodeHook" ∧ ev' = ev ∧
        ∃ rk alloc, rl = PStr rk ∧ get_risks (str_lower rk) = Ok alloc ∧
          r = close sa (PStr "Fulfilled")
                (plain_text ("For a " +:+ rk +:+ "-risk portfolio, invest in "
                             +:+ alloc)))).
Proof.
  unfold recommend_portfolio. intros H.
  try clear H1. apply bind_inv in H as (fn & ev1 & H1 & H).
  pose proof (reads_slot _ _ _ _ H1) as ->.
  apply slot_read_inv in H1 as (sl & Hs & Hfn).
  try clear H1. apply bind_inv in H as (age & ev1 & H1 & H).
  pose proof (reads_slot _ _ _ _ H1) as ->.
  apply slot_read_inv in H1 as (sl1 & Hs1 & Hage).
  rewrite <- (event_slots_unique _ _ _ Hs Hs1) in Hage. clear sl1 Hs1.
  try clear H1. apply bind_inv in H as (amt & ev1 & H1 & H).
  pose proof (reads_slot _ _ _ _ H1) as ->.
  apply slot_read_inv in H1 as (sl1 & Hs1 & Hamt).
  rewrite <- (event_slots_unique _ _ _ Hs Hs1) in Hamt. clear sl1 Hs1.
  try clear H1. apply bind_inv in H as (rl & ev1 & H1 & H).
  pose proof (reads_slot _ _ _ _ H1) as ->.
  apply slot_read_inv in H1 as (sl1 & Hs1 & Hrl).
  rewrite <- (event_slots_unique _ _ _ Hs Hs1) in Hrl. clear sl1 Hs1.
  try clear H1. apply bind_inv in H as (src0 & ev1 & H1 & H).
  pose proof (reads_event_item _ _ _ _ H1) as ->. clear H1.
  try clear H1. apply bind_inv in H as (src & ev1 & H1 & H).
  pose proof (reads_event_item _ _ _ _ H1) as ->.
  apply event_item_inv in H1 as Hsrc.
  exists sl, fn, age, amt, rl, src.
  destruct (eq_str src "DialogCodeHook") eqn:Heq.
  - assert (src = PStr "DialogCodeHook") as Hdch.
    { destruct src; try discriminate. cbn in Heq.
      by apply bool_decide_eq_true_1 in Heq as ->. }
    rewrite (bind_ok _ _ _ _ _ (get_slots_ok _ _ Hs)) in H.
    try clear H1. apply bind_inv in H as (ir & ev1 & H1 & H).
    unfold the_event in H1. injection H1 as <- <-.
    try clear H1. apply bind_inv in H as (vr & ev1 & H1 & H).
    apply lift_inv in H1 as [Hvr ->].
    destruct (isValid vr) eqn:Hval; cbn [negb] in H.
    try clear H1. + apply bind_inv in H as (sa & ev1 & H1 & H).
      pose proof (reads_event_item _ _ _ _ H1) as ->.
      apply event_item_inv in H1 as Hsa.
      rewrite (bind_ok _ _ _ _ _ (get_slots_ok _ _ Hs)) in H.
      injection H as <- <-. exists sa. repeat (split; [done|]).
      left. split; [done|]. exists vr. split; [done|]. by left.
    + destruct (violatedSlot vr) as [v|] eqn:Hv; [|discriminate H].
      try clear H1. apply bind_inv in H as (slots' & ev1 & H1 & H).
      cbn in H1. injection H1 as <- <-.
      try clear H1. apply bind_inv in H as (sa & ev1 & H1 & H).
      pose proof (reads_event_item _ _ _ _ H1) as ->.
      apply event_item_inv, write_slots_field_inv in H1 as Hsa; [|done].
      try clear H1. apply bind_inv in H as (nm & ev1 & H1 & H).
      pose proof (reads_intent_name _ _ _ H1) as ->.
      apply intent_name_inv, write_slots_name_inv in H1 as Hnm.
      try clear H1. apply bind_inv in H as (msg & ev1 & H1 & H).
      apply lift_inv in H1 as [Hmsg ->].
      unfold message_item in Hmsg.
      destruct (message vr) as [m|] eqn:Hm; [|discriminate].
      injection Hmsg as ->. injection H as <- <-.
      exists sa. repeat (split; [done|]).
      left. split; [done|]. exists vr. split; [done|]. right.
      split; [done|]. exists v, msg, nm. unfold violated_slot_item.
      by rewrite Hv.
  - assert (src ≠ PStr "DialogCodeHook") as Hne.
    { intros ->. by rewrite eq_str_true in Heq. }
    destruct rl as [|rk|]; [discriminate H | | discriminate H].
    try clear H1. apply bind_inv in H as (alloc & ev1 & H1 & H).
    apply lift_inv in H1 as [Hrisk ->].
    try clear H1. apply bind_inv in H as (sa & ev1 & H1 & H).
    pose proof (reads_event_item _ _ _ _ H1) as ->.
    apply event_item_inv in H1 as Hsa.
    injection H as <- <-. exists sa. repeat (split; [done|]).
    right. split; [done|]. split; [done|]. by exists rk, alloc.
Qed.

(** ** More on validation *)

Lemma parse_int_str s : ∃ a, parse_int (PStr s) = Ok a.
Proof.
  unfold parse_int, py_int. destruct (int_of_str s); by eexists.
Qed.

(** X1. On slots that are null or strings [validate_data] never
    raises: whatever the strings are, integer literals or not, it
    returns a verdict. *)
Theorem validate_data_returns age amt ir :
  (age = PNone ∨ ∃ s, age = PStr s) →
  (amt = PNone ∨ ∃ s, amt = PStr s) →
  ∃ vr, validate_data age amt ir = Ok vr.
Proof.
  intros Hage Hamt.
  assert (Hnull : ∃ vr, validate_data PNone amt ir = Ok vr).
  { destruct Hamt as [-> | [m ->]]; [by eexists|].
    unfold validate_data. cbn [is_not_none].
    destruct (parse_int_str m) as [k ->]. cbn.
    destruct (num_le k 4999); by eexists. }
  destruct Hage as [-> | [a ->]]; [done|].
  destruct (parse_int_str a) as [k Hp].
  destruct (num_lt k 0) eqn:Hlt.
  { eexists. by apply (validate_age_negative _ _ _ _ Hp). }
  destruct (num_gt k 65) eqn:Hgt.
  { eexists. by apply (validate_age_retired _ _ _ _ Hp). }
  rewrite (validate_age_passes (PStr a) amt ir); [done|].
  right. by exists k.
Qed.

Lemma validate_data_returns_witness :
  ∃ vr, validate_data (PStr "sixty") (PStr "5 000") PNone = Ok vr.
Proof.
  apply (validate_data_returns (PStr "sixty") (PStr "5 000") PNone);
    right; by eexists.
Defined.

Lemma age_violates_or_passes age :
  (∀ d, age ≠ PDict d) →
  (∃ a n, age = PStr a ∧ int_of_str a = Some n ∧ (n < 0 ∨ 65 < n)%Z)
  ∨ age_rule_passes age.
Proof.
  intros Hd. destruct age as [|a|d]; [right; by left | | by destruct (Hd d)].
  destruct (int_of_str a) as [n|] eqn:Hn.
  - destruct (decide (0 ≤ n ≤ 65)%Z) as [Hin|Hout].
    + right. by apply (age_rule_passes_int _ _ Hn).
    + left. exists a, n. repeat split; [done | lia].
  - right. by apply age_rule_passes_nan.
Qed.

Lemma amount_violates_or_passes amt :
  (∀ d, amt ≠ PDict d) →
  (∃ m k, amt = PStr m ∧ int_of_str m = Some k ∧ (k ≤ 4999)%Z)
  ∨ amount_rule_passes amt.
Proof.
  intros Hd. destruct amt as [|m|d]; [right; by left | | by destruct (Hd d)].
  destruct (int_of_str m) as [k|] eqn:Hk.
  - destruct (decide (5000 ≤ k)%Z) as [Hin|Hout].
    + right. by apply (amount_rule_passes_int _ _ Hk).
    + left. exists m, k. repeat split; [done | lia].
  - right. by apply amount_rule_passes_nan.
Qed.

Lemma validate_age_violates a n amt ir :
  int_of_str a = Some n → (n < 0 ∨ 65 < n)%Z →
  ∃ vr, validate_data (PStr a) amt ir = Ok vr ∧
        isValid vr = false ∧ violatedSlot vr = Some "age" ∧
        is_Some (message vr).
Proof.
  intros Hn Hv. pose proof (parse_int_int _ _ Hn) as Hp.
  destruct (Z.ltb_spec n 0).
  - eexists. split; [apply (validate_age_negative _ _ _ _ Hp); cbn; lia|].
    by repeat split.
  - eexists. split; [apply (validate_age_retired _ _ _ _ Hp); cbn; lia|].
    by repeat split.
Qed.

(** The message of a verdict is a PlainText dict. *)
Lemma verdict_message age amt ir vr msg :
  validate_data age amt ir = Ok vr → message vr = Some msg →
  ∃ c, msg = plain_text c.
Proof.
  intros Hvr Hmsg.
  destruct (validate_data_cases _ _ _ _ Hvr) as [[-> _] | [-> | [-> | [-> _]]]];
    cbn in Hmsg; [discriminate | | | ]; injection Hmsg as <-; by eexists.
Qed.

(** A verdict comes with the reason for it. *)
Lemma verdict_trichotomy age amt ir vr :
  validate_data age amt ir = Ok vr →
  ((∃ a n, age = PStr a ∧ int_of_str a = Some n ∧ (n < 0 ∨ 65 < n)%Z)
   ∧ ¬ age_rule_passes age
   ∧ isValid vr = false ∧ violatedSlot vr = Some "age" ∧ is_Some (message vr))
  ∨ ((∃ m k, amt = PStr m ∧ int_of_str m = Some k ∧ (k ≤ 4999)%Z)
     ∧ age_rule_passes age ∧ ¬ amount_rule_passes amt
     ∧ isValid vr = false ∧ violatedSlot vr = Some "investmentAmount"
     ∧ is_Some (message vr))
  ∨ (age_rule_passes age ∧ amount_rule_passes amt
     ∧ isValid vr = true ∧ violatedSlot vr = None).
Proof.
  intros Hvr.
  assert (Hage : ∀ d, age ≠ PDict d).
  { intros d ->. discriminate Hvr. }
  destruct (age_violates_or_passes _ Hage) as [(a & n & -> & Hn & Hv) | Ha].
  - destruct (validate_age_violates a n amt ir Hn Hv) as (vr' & Hvr' & Hi & Hs & Hm).
    rewrite Hvr in Hvr'. injection Hvr' as <-.
    left. split; [by exists a, n|]. split; [|done].
    rewrite (age_rule_passes_int _ _ Hn). lia.
  - assert (Hamt : ∀ d, amt ≠ PDict d).
    { intros d ->. rewrite (validate_age_passes _ _ _ Ha) in Hvr.
      discriminate Hvr. }
    destruct (amount_violates_or_passes _ Hamt) as [(m & k & -> & Hk & Hv) | Hm].
    + rewrite (validate_amount_low age (PInt k) (PStr m) ir Ha
                 (parse_int_int _ _ Hk)) in Hvr by (cbn; lia).
      injection Hvr as <-. right. left.
      split; [by exists m, k|]. split; [done|]. split; [|by repeat split].
      rewrite (amount_rule_passes_int _ _ Hk). lia.
    + rewrite (validate_both_pass _ _ _ Ha Hm) in Hvr. injection Hvr as <-.
      right. right. by repeat split.
Qed.

(** X2. What a verdict of [validate_data] says about the slots: it is
    valid exactly when the age and the amount pass their rules; it names
    "age" exactly when the age is a string that parses to an integer
    below 0 or above 65; it names "investmentAmount" exactly when the
    age passes and the amount is a string that parses to an integer of
    at most 4999. A null slot and a string that is no integer are never
    named. *)
Theorem validate_data_verdict age amt ir vr :
  validate_data age amt ir = Ok vr →
  (isValid vr = true ↔ age_rule_passes age ∧ amount_rule_passes amt)
  ∧ (violatedSlot vr = Some "age" ↔
       ∃ a n, age = PStr a ∧ int_of_str a = Some n ∧ (n < 0 ∨ 65 < n)%Z)
  ∧ (violatedSlot vr = Some "investmentAmount" ↔
       age_rule_passes age ∧
       ∃ m k, amt = PStr m ∧ int_of_str m = Some k ∧ (k ≤ 4999)%Z).
Proof.
  intros Hvr.
  destruct (verdict_trichotomy _ _ _ _ Hvr)
    as [(HA & Hna & Hi & Hs & _) | [(HB & Ha & Hnm & Hi & Hs & _)
        | (Ha & Hm & Hi & Hs)]]; rewrite Hi, Hs.
  - split; [|split].
    + split; [discriminate | by intros [? _]].
    + done.
    + split; [discriminate | by intros [? _]].
  - split; [|split].
    + split; [discriminate | by intros [_ ?]].
    + split; [discriminate|]. intros (a & n & -> & Hn & Hv).
      apply (age_rule_passes_int _ _ Hn) in Ha. lia.
    + done.
  - split; [done|]. split.
    + split; [discriminate|]. intros (a & n & -> & Hn & Hv).
      apply (age_rule_passes_int _ _ Hn) in Ha. lia.
    + split; [discriminate|]. intros [_ (m & k & -> & Hk & Hv)].
      apply (amount_rule_passes_int _ _ Hk) in Hm. lia.
Qed.

Lemma validate_data_verdict_witness :
  violatedSlot (build_validation_result false (Some "investmentAmount")
    (Some "Your investment amount must be greater than or equal to $5000, please provide a different investment amount."))
  = Some "investmentAmount" ↔
  age_rule_passes PNone ∧
  ∃ m k, PStr "4999" = PStr m ∧ int_of_str m = Some k ∧ (k ≤ 4999)%Z.
Proof.
  apply (validate_data_verdict PNone (PStr "4999") PNone). reflexivity.
Defined.

(** ** What a response tells about the request *)

(** X3. In the validation stage the handler returns nothing but Delegate
    and ElicitSlot responses. A Delegate response means that both slots
    passed their rules; it carries the slots and the session attributes
    of the event, which is left as it was. An ElicitSlot response names
    a slot whose value was a string that parses to an integer outside
    the rule ("age": below 0 or above 65; "investmentAmount": at most
    4999, with the age passing); it carries the slots with that entry
    null, and the event holds the same written slots. *)
Theorem validation_stage_returns ev r ev' :
  event_field ev "invocationSource" (PStr "DialogCodeHook") →
  recommend_portfolio ev = (Ok r, ev') →
  ∃ sl sa age amt,
    event_slots ev sl ∧ event_field ev "sessionAttributes" sa ∧
    sl !! "age" = Some age ∧ sl !! "investmentAmount" = Some amt ∧
    ((age_rule_passes age ∧ amount_rule_passes amt ∧
      r = (PDict (<["sessionAttributes" := sa]>
                 (<["dialogAction" :=
                     PDict (<["type" := PStr "Delegate"]>
                           (<["slots" := PDict sl]> ∅))]> ∅))) ∧ ev' = ev)
     ∨ (∃ nm v s n c,
          event_name ev nm ∧ sl !! v = Some (PStr s) ∧ int_of_str s = Some n ∧
          ((v = "age" ∧ (n < 0 ∨ 65 < n)%Z)
           ∨ (v = "investmentAmount" ∧ (n ≤ 4999)%Z ∧ age_rule_passes age)) ∧
          r = (PDict (<["sessionAttributes" := sa]>
                     (<["dialogAction" :=
                         PDict (<["type" := PStr "ElicitSlot"]>
                               (<["intentName" := nm]>
                               (<["slots" := PDict (<[v := PNone]> sl)]>
                               (<["slotToElicit" := PStr v]>
                               (<["message" :=
                                   PDict (<["contentType" := PStr "PlainText"]>
                                          (<["content" := PStr c]> ∅))]> ∅)))))]> ∅))) ∧
          ev' = write_slots (PDict (<[v := PNone]> sl)) ev)).
Proof.
  intros Hsrc H.
  apply handler_returns_inv in H
    as (sl & fn & age & amt & rl & src & sa & Hs & Hfn & Hage & Hamt & Hrl
        & Hsrc' & Hsa & Hbranch).
  pose proof (event_field_unique _ _ _ _ Hsrc Hsrc') as <-.
  exists sl, sa, age, amt. repeat (split; [done|]).
  destruct Hbranch as [(_ & vr & Hvr & Hcase) | (Hne & _)]; [|done].
  destruct (verdict_trichotomy _ _ _ _ Hvr)
    as [((a & n & -> & Hn & Hv) & _ & Hi & Hv' & _)
       | [((m & k & -> & Hk & Hv) & Ha & _ & Hi & Hv' & _)
       | (Ha & Hm & Hi & _)]].
  - destruct Hcase as [(Hval & _) | (_ & v & msg & nm & Hvs & Hmsg & Hnm & -> & ->)];
      [congruence|].
    rewrite Hv' in Hvs. injection Hvs as <-.
    destruct (verdict_message _ _ _ _ _ Hvr Hmsg) as [c ->].
    right. exists nm, "age", a, n, c. repeat (split; [done|]).
    split; [by left | done].
  - destruct Hcase as [(Hval & _) | (_ & v & msg & nm & Hvs & Hmsg & Hnm & -> & ->)];
      [congruence|].
    rewrite Hv' in Hvs. injection Hvs as <-.
    destruct (verdict_message _ _ _ _ _ Hvr Hmsg) as [c ->].
    right. exists nm, "investmentAmount", m, k, c. repeat (split; [done|]).
    split; [by right | done].
  - destruct Hcase as [(_ & -> & ->) | (Hinv & _)]; [by left | congruence].
Qed.

Lemma validation_stage_returns_witness :
  ∃ sl sa age amt,
    event_slots (sample_event "DialogCodeHook" (PStr "30") (PStr "5000") PNone) sl ∧
    event_field (sample_event "DialogCodeHook" (PStr "30") (PStr "5000") PNone)
      "sessionAttributes" sa ∧
    sl !! "age" = Some age ∧ sl !! "investmentAmount" = Some amt ∧
    ((age_rule_passes age ∧ amount_rule_passes amt ∧
      (PDict (<["sessionAttributes" := PDict (<["lang" := PStr "en"]> ∅)]>
             (<["dialogAction" :=
                 PDict (<["type" := PStr "Delegate"]>
                       (<["slots" := PDict (sample_slots (PStr "30") (PStr "5000") PNone)]> ∅))]> ∅)))
      = (PDict (<["sessionAttributes" := sa]>
               (<["dialogAction" :=
                   PDict (<["type" := PStr "Delegate"]>
                         (<["slots" := PDict sl]> ∅))]> ∅))) ∧
      sample_event "DialogCodeHook" (PStr "30") (PStr "5000") PNone
      = sample_event "DialogCodeHook" (PStr "30") (PStr "5000") PNone)
     ∨ (∃ nm v s n c,
          event_name (sample_event "DialogCodeHook" (PStr "30") (PStr "5000") PNone) nm ∧
          sl !! v = Some (PStr s) ∧ int_of_str s = Some n ∧
          ((v = "age" ∧ (n < 0 ∨ 65 < n)%Z)
           ∨ (v = "investmentAmount" ∧ (n ≤ 4999)%Z ∧ age_rule_passes age)) ∧
          (PDict (<["sessionAttributes" := PDict (<["lang" := PStr "en"]> ∅)]>
                 (<["dialogAction" :=
                     PDict (<["type" := PStr "Delegate"]>
                           (<["slots" := PDict (sample_slots (PStr "30") (PStr "5000") PNone)]> ∅))]> ∅)))
          = (PDict (<["sessionAttributes" := sa]>
                   (<["dialogAction" :=
                       PDict (<["type" := PStr "ElicitSlot"]>
                             (<["intentName" := nm]>
                             (<["slots" := PDict (<[v := PNone]> sl)]>
                             (<["slotToElicit" := PStr v]>
                             (<["message" :=
                                   PDict (<["contentType" := PStr "PlainText"]>
                                          (<["content" := PStr c]> ∅))]> ∅)))))]> ∅))) ∧
          sample_event "DialogCodeHook" (PStr "30") (PStr "5000") PNone
          = write_slots (PDict (<[v := PNone]> sl))
              (sample_event "DialogCodeHook" (PStr "30") (PStr "5000") PNone))).
Proof.
  apply (validation_stage_returns _ _ _
           (sample_event_source "DialogCodeHook" (PStr "30") (PStr "5000") PNone)).
  vm_compute. reflexivity.
Defined.



(** ** What the handler does to the event *)

Ltac solve_reads :=
  repeat first
    [ apply reads_slot | apply reads_intent_name | apply reads_event_item
    | apply reads_get_slots | apply reads_the_event | apply reads_lift
    | apply reads_ret | apply reads_raise
    | apply reads_bind; [|intros ?] ].

(** Lines 161-167: once the slot is written, the rest only reads. *)
Lemma reads_elicit_tail vr slots :
  reads (session_attributes ← event_item "sessionAttributes";
         intent_name ← (current_intent ← event_item "currentIntent";
                        lift (current_intent.["name"]));
         message ← lift (message_item vr);
         mret (elicit_slot session_attributes intent_name slots
                 (violated_slot_item vr) message)).
Proof. solve_reads. Qed.

Lemma reads_delegate_tail :
  reads (output_session_attributes ← event_item "sessionAttributes";
         slots ← get_slots;
         mret (delegate output_session_attributes slots)).
Proof. solve_reads. Qed.

Lemma reads_fulfillment risk_level :
  reads (match risk_level with
         | PStr r =>
             desired_risk ← lift (get_risks (str_lower r));
             session_attributes ← event_item "sessionAttributes";
             mret (close session_attributes (PStr "Fulfilled")
                     (plain_text ("For a " +:+ r +:+ "-risk portfolio, invest in "
                                  +:+ desired_risk)))
         | _ => raise AttributeError
         end).
Proof. destruct risk_level; solve_reads. Qed.

Lemma handler_frame ev r ev' :
  recommend_portfolio ev = (r, ev') →
  ev' = ev
  ∨ ∃ sl v, event_slots ev sl ∧ (v = "age" ∨ v = "investmentAmount") ∧
            is_Some (sl !! v) ∧
            ev' = write_slots (PDict (<[v := PNone]> sl)) ev.
Proof.
  unfold recommend_portfolio. intros H.
  apply bind_reads_cases in H as [[-> _] | (fn & H1 & H)];
    [by left | | apply reads_slot].
  apply bind_reads_cases in H as [[-> _] | (age & H2 & H)];
    [by left | | apply reads_slot].
  apply slot_read_inv in H2 as (sl & Hs & Hage).
  apply bind_reads_cases in H as [[-> _] | (amt & H3 & H)];
    [by left | | apply reads_slot].
  apply slot_read_inv in H3 as (sl3 & Hs3 & Hamt).
  rewrite <- (event_slots_unique _ _ _ Hs Hs3) in Hamt. clear sl3 Hs3.
  apply bind_reads_cases in H as [[-> _] | (rl & H4 & H)];
    [by left | | apply reads_slot].
  apply bind_reads_cases in H as [[-> _] | (src0 & H5 & H)];
    [by left | | apply reads_event_item].
  apply bind_reads_cases in H as [[-> _] | (src & H6 & H)];
    [by left | | apply reads_event_item].
  destruct (eq_str src "DialogCodeHook").
  - rewrite (bind_ok _ _ _ _ _ (get_slots_ok _ _ Hs)) in H.
    apply bind_reads_cases in H as [[-> _] | (ir & H7 & H)];
      [by left | | apply reads_the_event].
    apply bind_reads_cases in H as [[-> _] | (vr & H8 & H)];
      [by left | | apply reads_lift].
    apply lift_inv in H8 as [Hvr _].
    destruct (isValid vr) eqn:Hval; cbn [negb] in H.
    + left. by apply reads_delegate_tail in H.
    + destruct (verdict_trichotomy _ _ _ _ Hvr)
        as [(_ & _ & _ & Hv & _) | [(_ & _ & _ & _ & Hv & _) | (_ & _ & ? & _)]];
        [ | | congruence]; rewrite Hv in H.
      * apply bind_cases in H as [(e & H & _) | (s & ev1 & H9 & H)];
          [discriminate H|].
        cbn in H9. injection H9 as <- <-.
        apply reads_elicit_tail in H as ->.
        right. exists sl, "age". split; [done|]. split; [by left|]. by split.
      * apply bind_cases in H as [(e & H & _) | (s & ev1 & H9 & H)];
          [discriminate H|].
        cbn in H9. injection H9 as <- <-.
        apply reads_elicit_tail in H as ->.
        right. exists sl, "investmentAmount". split; [done|].
        split; [by right|]. by split.
  - left. by apply reads_fulfillment in H.
Qed.

(** X5. Whatever the event and whatever the outcome, a response or an
    exception, the handler leaves the event as it was, or it has set one
    of the slots "age" and "investmentAmount", which was there, to null
    and changed nothing else: the other slots, the intent name and every
    other field of the event read as before. *)
Theorem handler_writes_one_slot context ev r ev' :
  lambda_handler context ev = (r, ev') →
  ev' = ev
  ∨ ∃ sl v,
      event_slots ev sl ∧ (v = "age" ∨ v = "investmentAmount") ∧
      is_Some (sl !! v) ∧
      ev' = write_slots (PDict (<[v := PNone]> sl)) ev ∧
      event_slots ev' (<[v := PNone]> sl) ∧
      (∀ k x, k ≠ "currentIntent" → event_field ev k x ↔ event_field ev' k x) ∧
      (∀ nm, event_name ev nm ↔ event_name ev' nm).
Proof.
  unfold lambda_handler, dispatch. intros H.
  apply bind_reads_cases in H as [[-> _] | (nm & H1 & H)];
    [by left | | apply reads_intent_name].
  assert (Hrec : recommend_portfolio ev = (r, ev') ∨ ev' = ev).
  { destruct (eq_str nm "recommendPortfolio"); [by left|]. right.
    destruct nm; by apply reads_raise in H. }
  destruct Hrec as [Hrec | ->]; [|by left].
  apply handler_frame in Hrec as [-> | (sl & v & Hs & Hv & Hin & ->)];
    [by left|].
  right. exists sl, v. repeat (split; [done|]).
  split; [by apply (write_slots_slots _ sl)|]. split.
  - intros k x Hk. split; [by apply write_slots_field|].
    by apply write_slots_field_inv.
  - intros nm'. split; [by apply (write_slots_name _ _ _ sl)|].
    apply write_slots_name_inv.
Qed.

Lemma handler_writes_one_slot_witness :
  write_slots (PDict (<["age" := PNone]> (sample_slots (PStr "70") PNone PNone)))
    (sample_event "DialogCodeHook" (PStr "70") PNone PNone)
  = sample_event "DialogCodeHook" (PStr "70") PNone PNone
  ∨ ∃ sl v,
      event_slots (sample_event "DialogCodeHook" (PStr "70") PNone PNone) sl ∧
      (v = "age" ∨ v = "investmentAmount") ∧
      is_Some (sl !! v) ∧
      write_slots (PDict (<["age" := PNone]> (sample_slots (PStr "70") PNone PNone)))
        (sample_event "DialogCodeHook" (PStr "70") PNone PNone)
      = write_slots (PDict (<[v := PNone]> sl))
          (sample_event "DialogCodeHook" (PStr "70") PNone PNone) ∧
      event_slots
        (write_slots (PDict (<["age" := PNone]> (sample_slots (PStr "70") PNone PNone)))
           (sample_event "DialogCodeHook" (PStr "70") PNone PNone))
        (<[v := PNone]> sl) ∧
      (∀ k x, k ≠ "currentIntent" →
         event_field (sample_event "DialogCodeHook" (PStr "70") PNone PNone) k x ↔
         event_field
           (write_slots (PDict (<["age" := PNone]> (sample_slots (PStr "70") PNone PNone)))
              (sample_event "DialogCodeHook" (PStr "70") PNone PNone)) k x) ∧
      (∀ nm,
         event_name (sample_event "DialogCodeHook" (PStr "70") PNone PNone) nm ↔
         event_name
           (write_slots (PDict (<["age" := PNone]> (sample_slots (PStr "70") PNone PNone)))
              (sample_event "DialogCodeHook" (PStr "70") PNone PNone)) nm).
Proof.
  apply (handler_writes_one_slot PNone
           (sample_event "DialogCodeHook" (PStr "70") PNone PNone)
           (Ok (elicit_slot (PDict (<["lang" := PStr "en"]> ∅))
                  (PStr "recommendPortfolio")
                  (PDict (<["age" := PNone]> (sample_slots (PStr "70") PNone PNone)))
                  (PStr "age")
                  (plain_text "Sorry, you are already at retirement age! I cannot recommend a portfolio.")))).
  vm_compute. reflexivity.
Defined.

(** ** Events with a field missing *)

Lemma write_slots_lacks ev s k :
  k ≠ "currentIntent" → event_lacks ev k → event_lacks (write_slots s ev) k.
Proof.
  intros Hk (e & -> & He). eexists. split; [reflexivity|].
  by rewrite lookup_alter_ne.
Qed.

(** X6. An exception can come after the write. In the validation stage,
    on an event that has its four slots but no "sessionAttributes", a
    failed validation makes the handler raise [KeyError] on
    "sessionAttributes", and the violated slot of the event is null all
    the same. *)
Theorem elicit_raises_after_write ev sl fn age amt rl vr :
  event_slots ev sl →
  event_field ev "invocationSource" (PStr "DialogCodeHook") →
  event_lacks ev "sessionAttributes" →
  sl !! "firstName" = Some fn → sl !! "age" = Some age →
  sl !! "investmentAmount" = Some amt → sl !! "riskLevel" = Some rl →
  validate_data age amt ev = Ok vr → isValid vr = false →
  ∃ v ev',
    violatedSlot vr = Some v ∧
    recommend_portfolio ev = (Raise (KeyError "sessionAttributes"), ev') ∧
    event_slots ev' (<[v := PNone]> sl) ∧
    <[v := PNone]> sl !! v = Some PNone ∧
    (∃ s, sl !! v = Some (PStr s)).
Proof.
  intros Hs Hsrc Hno Hfn Hage Hamt Hrl Hvr Hinv.
  assert (∃ v s, violatedSlot vr = Some v ∧ sl !! v = Some (PStr s))
    as (v & s & Hv & Hin).
  { destruct (verdict_trichotomy _ _ _ _ Hvr)
      as [((a & n & -> & _) & _ & _ & Hv & _)
         | [((m & k & -> & _) & _ & _ & _ & Hv & _) | (_ & _ & ? & _)]];
      [by exists "age", a | by exists "investmentAmount", m | congruence]. }
  exists v, (write_slots (PDict (<[v := PNone]> sl)) ev).
  split; [done|]. split; [|split; [by apply (write_slots_slots _ sl)|split]].
  - unfold recommend_portfolio.
    rewrite (handler_reads ev sl fn age amt rl _ Hs Hfn Hage Hamt Hrl Hsrc).
    rewrite eq_str_true.
    rewrite (bind_ok _ _ _ _ _ (get_slots_ok _ _ Hs)).
    unfold the_event at 1. rewrite (bind_ok _ _ ev ev ev) by done.
    rewrite (bind_ok _ _ ev vr ev) by (unfold lift; by rewrite Hvr).
    rewrite Hinv, Hv. cbn [negb].
    rewrite (bind_ok _ _ ev (PDict (<[v := PNone]> sl))
               (write_slots (PDict (<[v := PNone]> sl)) ev)) by done.
    apply bind_raise, event_lacks_item. by apply write_slots_lacks.
  - by rewrite lookup_insert_eq.
  - by exists s.
Qed.

Lemma elicit_raises_after_write_witness :
  ∃ v ev',
    violatedSlot (build_validation_result false (Some "age")
      (Some "This is not a valid age, please provide a different age."))
    = Some v ∧
    recommend_portfolio
      (PDict (<["currentIntent" :=
                 PDict (<["slots" := PDict (sample_slots (PStr "-1") PNone PNone)]> ∅)]>
             (<["invocationSource" := PStr "DialogCodeHook"]> ∅)))
    = (Raise (KeyError "sessionAttributes"), ev') ∧
    event_slots ev' (<[v := PNone]> (sample_slots (PStr "-1") PNone PNone)) ∧
    <[v := PNone]> (sample_slots (PStr "-1") PNone PNone) !! v = Some PNone ∧
    (∃ s, sample_slots (PStr "-1") PNone PNone !! v = Some (PStr s)).
Proof.
  assert (Hs : event_slots
    (PDict (<["currentIntent" :=
               PDict (<["slots" := PDict (sample_slots (PStr "-1") PNone PNone)]> ∅)]>
           (<["invocationSource" := PStr "DialogCodeHook"]> ∅)))
    (sample_slots (PStr "-1") PNone PNone)).
  { eexists _, _. split; [reflexivity|]. split; by rewrite lookup_insert_eq. }
  assert (Hsrc : event_field
    (PDict (<["currentIntent" :=
               PDict (<["slots" := PDict (sample_slots (PStr "-1") PNone PNone)]> ∅)]>
           (<["invocationSource" := PStr "DialogCodeHook"]> ∅)))
    "invocationSource" (PStr "DialogCodeHook")).
  { eexists. split; [reflexivity|].
    rewrite lookup_insert_ne by done. by rewrite lookup_insert_eq. }
  assert (Hno : event_lacks
    (PDict (<["currentIntent" :=
               PDict (<["slots" := PDict (sample_slots (PStr "-1") PNone PNone)]> ∅)]>
           (<["invocationSource" := PStr "DialogCodeHook"]> ∅)))
    "sessionAttributes").
  { eexists. split; [reflexivity|].
    do 2 (rewrite lookup_insert_ne by done). by rewrite lookup_empty. }
  destruct (sample_slots_lookup (PStr "-1") PNone PNone) as (H5&H6&H7&H8).
  apply (elicit_raises_after_write _ _ _ _ _ _ _ Hs Hsrc Hno H5 H6 H7 H8);
    reflexivity.
Defined.

(** X7. Reads of the event that fail, on an event that has its four
    slots: without "invocationSource" the handler raises [KeyError] on
    it in either stage; without "sessionAttributes" it raises [KeyError]
    on it where it would have returned Delegate or Close. The event is
    as before in each case. *)
Theorem handler_missing_field ev sl fn age amt rl :
  event_slots ev sl →
  sl !! "firstName" = Some fn → sl !! "age" = Some age →
  sl !! "investmentAmount" = Some amt → sl !! "riskLevel" = Some rl →
  (event_lacks ev "invocationSource" →
     recommend_portfolio ev = (Raise (KeyError "invocationSource"), ev))
  ∧ (event_field ev "invocationSource" (PStr "DialogCodeHook") →
     event_lacks ev "sessionAttributes" →
     age_rule_passes age → amount_rule_passes amt →
     recommend_portfolio ev = (Raise (KeyError "sessionAttributes"), ev))
  ∧ (∀ src rk alloc,
       event_field ev "invocationSource" src → src ≠ PStr "DialogCodeHook" →
       event_lacks ev "sessionAttributes" →
       rl = PStr rk → risk_levels !! str_lower rk = Some alloc →
       recommend_portfolio ev = (Raise (KeyError "sessionAttributes"), ev)).
Proof.
  intros Hs Hfn Hage Hamt Hrl. split; [|split].
  - intros Hno. unfold recommend_portfolio.
    rewrite (bind_ok _ _ _ _ _ (slot_read _ _ _ _ Hs Hfn)).
    rewrite (bind_ok _ _ _ _ _ (slot_read _ _ _ _ Hs Hage)).
    rewrite (bind_ok _ _ _ _ _ (slot_read _ _ _ _ Hs Hamt)).
    rewrite (bind_ok _ _ _ _ _ (slot_read _ _ _ _ Hs Hrl)).
    by apply bind_raise, event_lacks_item.
  - intros Hsrc Hno Ha Hm. unfold recommend_portfolio.
    rewrite (handler_reads ev sl fn age amt rl _ Hs Hfn Hage Hamt Hrl Hsrc).
    rewrite eq_str_true.
    rewrite (bind_ok _ _ _ _ _ (get_slots_ok _ _ Hs)).
    unfold the_event at 1. rewrite (bind_ok _ _ ev ev ev) by done.
    rewrite (bind_ok _ _ ev _ ev)
      by (unfold lift; by rewrite (validate_both_pass _ _ _ Ha Hm)).
    cbn [build_validation_result isValid negb].
    by apply bind_raise, event_lacks_item.
  - intros src rk alloc Hsrc Hne Hno Hrk Halloc.
    rewrite (handler_fulfills ev sl fn age amt rl src Hs Hfn Hage Hamt Hrl
               Hsrc rk Hne Hrk).
    rewrite (bind_ok _ _ _ alloc ev)
      by (unfold lift, get_risks; by rewrite Halloc).
    by apply bind_raise, event_lacks_item.
Qed.

Lemma handler_missing_field_witness :
  recommend_portfolio
    (PDict (<["currentIntent" :=
               PDict (<["slots" := PDict (sample_slots PNone PNone (PStr "low"))]> ∅)]> ∅))
  = (Raise (KeyError "invocationSource"),
     PDict (<["currentIntent" :=
               PDict (<["slots" := PDict (sample_slots PNone PNone (PStr "low"))]> ∅)]> ∅)).
Proof.
  assert (Hs : event_slots
    (PDict (<["currentIntent" :=
               PDict (<["slots" := PDict (sample_slots PNone PNone (PStr "low"))]> ∅)]> ∅))
    (sample_slots PNone PNone (PStr "low"))).
  { eexists _, _. split; [reflexivity|]. split; by rewrite lookup_insert_eq. }
  destruct (sample_slots_lookup PNone PNone (PStr "low")) as (H5&H6&H7&H8).
  apply (proj1 (handler_missing_field _ _ _ _ _ _ Hs H5 H6 H7 H8)).
  eexists. split; [reflexivity|].
  rewrite lookup_insert_ne by done. by rewrite lookup_empty.
Defined.

(** X8. Dispatch on an event it cannot read: an event that is no dict,
    or whose "currentIntent" is no dict, raises [TypeError]; an event
    without "currentIntent", or whose intent has no "name", raises
    [KeyError] on that key; the supported intent without "slots" raises
    [KeyError] on "slots". No response comes back and the event is as
    before. *)
Theorem dispatch_malformed_event ev :
  ((∀ e, ev ≠ PDict e) → dispatch ev = (Raise TypeError, ev))
  ∧ (event_lacks ev "currentIntent" →
     dispatch ev = (Raise (KeyError "currentIntent"), ev))
  ∧ (∀ v, event_field ev "currentIntent" v → (∀ ci, v ≠ PDict ci) →
       dispatch ev = (Raise TypeError, ev))
  ∧ (∀ ci, event_field ev "currentIntent" (PDict ci) → ci !! "name" = None →
       dispatch ev = (Raise (KeyError "name"), ev))
  ∧ (∀ ci, event_field ev "currentIntent" (PDict ci) →
       ci !! "name" = Some (PStr "recommendPortfolio") → ci !! "slots" = None →
       dispatch ev = (Raise (KeyError "slots"), ev)
       ∧ ∀ context, lambda_handler context ev = (Raise (KeyError "slots"), ev)).
Proof.
  split; [|split; [|split; [|split]]].
  - intros Hne. destruct ev as [| |e]; [done | done | by destruct (Hne e)].
  - intros Hno. unfold dispatch. apply bind_raise.
    by apply bind_raise, event_lacks_item.
  - intros v Hv Hne. unfold dispatch. apply bind_raise.
    rewrite (bind_ok _ _ _ _ _ (event_item_ok _ _ _ Hv)).
    destruct v as [| |ci]; [done | done | by destruct (Hne ci)].
  - intros ci Hci Hnm. unfold dispatch. apply bind_raise.
    rewrite (bind_ok _ _ _ _ _ (event_item_ok _ _ _ Hci)).
    unfold lift, subscript. by rewrite Hnm.
  - intros ci Hci Hnm Hsl.
    assert (Hname : event_name ev (PStr "recommendPortfolio")).
    { destruct Hci as (e & -> & Hci). by exists e, ci. }
    assert (recommend_portfolio ev = (Raise (KeyError "slots"), ev)) as Hrec.
    { unfold recommend_portfolio. apply bind_raise, bind_raise.
      unfold get_slots. rewrite (bind_ok _ _ _ _ _ (event_item_ok _ _ _ Hci)).
      unfold lift, subscript. by rewrite Hsl. }
    unfold lambda_handler, dispatch.
    rewrite (bind_ok _ _ _ _ _ (intent_name_ok _ _ Hname)).
    by rewrite eq_str_true.
Qed.

Lemma dispatch_malformed_event_witness :
  dispatch PNone = (Raise TypeError, PNone)
  ∧ dispatch (PDict ∅) = (Raise (KeyError "currentIntent"), PDict ∅).
Proof.
  split.
  - apply (proj1 (dispatch_malformed_event PNone)). discriminate.
  - apply (proj1 (proj2 (dispatch_malformed_event (PDict ∅)))).
    by exists ∅.
Defined.

(** ** Running the handler again on the same event *)




